(** * JobHub: the slug codec, the short-lived job cache, the Careerjet search
      client, the slug resolver and the sitemap

    A shallow embedding of [lib/utils.ts], [lib/careerjet.ts] and
    [app/sitemap.ts].  JavaScript strings are sequences of UTF-16 code units,
    instants are integer milliseconds, the process-wide [jobCache] is an
    insertion-ordered association list (the iteration order of a JS [Map]),
    and asynchronous, throwing code lives in a state-and-exception monad. *)

From Stdlib Require Import ZArith List Bool String Ascii Lia QArith.
Import ListNotations.
Open Scope Z_scope.

Set Implicit Arguments.

(** ** JavaScript strings *)

Module JsString.

(** A UTF-16 code unit. *)
Definition char16 := Z.
Definition jsstring := list char16.

Definition js (s : string) : jsstring :=
  map (fun a => Z.of_N (N_of_ascii a)) (list_ascii_of_string s).

Definition hyphen : char16 := 45.
Definition underscore : char16 := 95.
Definition space : char16 := 32.

Fixpoint eqb (s t : jsstring) : bool :=
  match s, t with
  | [], [] => true
  | c :: s', d :: t' => (c =? d) && eqb s' t'
  | _, _ => false
  end.

(** [\w] without the [u] and [i] flags: [A-Za-z0-9_]. *)
Definition is_word (c : char16) : bool :=
  ((48 <=? c) && (c <=? 57)) || ((65 <=? c) && (c <=? 90))
  || ((97 <=? c) && (c <=? 122)) || (c =? underscore).

(** [\s], which is also what [trim] strips: WhiteSpace and LineTerminator. *)
Definition is_space (c : char16) : bool :=
  ((9 <=? c) && (c <=? 13)) || (c =? 32) || (c =? 160) || (c =? 5760)
  || ((8192 <=? c) && (c <=? 8202)) || (c =? 8232) || (c =? 8233)
  || (c =? 8239) || (c =? 8287) || (c =? 12288) || (c =? 65279).

Definition is_lower_hex (c : char16) : bool :=
  ((48 <=? c) && (c <=? 57)) || ((97 <=? c) && (c <=? 102)).

Fixpoint drop_while (p : char16 -> bool) (s : jsstring) : jsstring :=
  match s with
  | [] => []
  | c :: r => if p c then drop_while p r else s
  end.

Definition drop_while_end (p : char16 -> bool) (s : jsstring) : jsstring :=
  rev (drop_while p (rev s)).

(** [String.prototype.trim]. *)
Definition trim (s : jsstring) : jsstring :=
  drop_while_end is_space (drop_while is_space s).

(** [s.replace(/[c]+/g, by)] for a character class [cls]: every maximal run
    of class members becomes one copy of [by]. *)
Fixpoint replace_runs (cls : char16 -> bool) (by_ : jsstring) (in_run : bool)
  (s : jsstring) : jsstring :=
  match s with
  | [] => []
  | c :: r =>
      if cls c then
        (if in_run then [] else by_) ++ replace_runs cls by_ true r
      else c :: replace_runs cls by_ false r
  end.

(** [s.split(sep)] for a one-unit separator; never the empty array. *)
Fixpoint split (sep : char16) (s : jsstring) : list jsstring :=
  match s with
  | [] => [[]]
  | c :: r =>
      if c =? sep then [] :: split sep r
      else match split sep r with
           | p :: ps => (c :: p) :: ps
           | [] => [[c]]
           end
  end.

(** [parts.join(sep)]. *)
Fixpoint join (sep : jsstring) (parts : list jsstring) : jsstring :=
  match parts with
  | [] => []
  | [p] => p
  | p :: ps => p ++ sep ++ join sep ps
  end.

(** [s.slice(0, n)] for [0 <= n]. *)
Definition slice0 (n : nat) (s : jsstring) : jsstring := firstn n s.

(** [String(n)] for an integer [n] in the safe range, below [2 ^ 53] in
    absolute value: all its decimal digits.  From [1e21] on, [String] turns
    to exponent notation; this rendering does not follow it there. *)
Fixpoint digits (fuel : nat) (n : Z) (acc : jsstring) : jsstring :=
  match fuel with
  | O => acc
  | S f =>
      let acc' := (48 + n mod 10) :: acc in
      if n / 10 =? 0 then acc' else digits f (n / 10) acc'
  end.

Definition String_of_Z (n : Z) : jsstring :=
  if n <? 0 then hyphen :: digits (Z.to_nat (Z.log2 (- n)) + 1) (- n) []
  else digits (Z.to_nat (Z.log2 n) + 1) n [].

End JsString.
Export JsString.

(** ** UTF-8 and SHA-256, as Node's [crypto] computes them *)

Module Sha256.

Definition is_high_surrogate (c : Z) : bool := (55296 <=? c) && (c <=? 56319).
Definition is_low_surrogate (c : Z) : bool := (56320 <=? c) && (c <=? 57343).

Definition utf8_of_code_point (p : Z) : list Z :=
  if p <? 128 then [p]
  else if p <? 2048 then [Z.lor 192 (Z.shiftr p 6); Z.lor 128 (Z.land p 63)]
  else if p <? 65536 then
    [Z.lor 224 (Z.shiftr p 12); Z.lor 128 (Z.land (Z.shiftr p 6) 63);
     Z.lor 128 (Z.land p 63)]
  else
    [Z.lor 240 (Z.shiftr p 18); Z.lor 128 (Z.land (Z.shiftr p 12) 63);
     Z.lor 128 (Z.land (Z.shiftr p 6) 63); Z.lor 128 (Z.land p 63)].

(** The bytes [hash.update(str)] feeds to the digest: the UTF-8 encoding,
    a lone surrogate becoming U+FFFD. *)
Fixpoint utf8_encode (s : jsstring) : list Z :=
  match s with
  | [] => []
  | c :: r =>
      if is_high_surrogate c then
        match r with
        | d :: r' =>
            if is_low_surrogate d then
              utf8_of_code_point (65536 + (c - 55296) * 1024 + (d - 56320))
                ++ utf8_encode r'
            else utf8_of_code_point 65533 ++ utf8_encode r
        | [] => utf8_of_code_point 65533
        end
      else if is_low_surrogate c then utf8_of_code_point 65533 ++ utf8_encode r
      else utf8_of_code_point c ++ utf8_encode r
  end.

Definition w32 (x : Z) : Z := x mod 4294967296.
Definition add32 (x y : Z) : Z := w32 (x + y).
Definition rotr (n x : Z) : Z :=
  w32 (Z.lor (Z.shiftr x n) (Z.shiftl x (32 - n))).
Definition not32 (x : Z) : Z := Z.lxor x 4294967295.

Definition Ch (x y z : Z) : Z := Z.lxor (Z.land x y) (Z.land (not32 x) z).
Definition Maj (x y z : Z) : Z :=
  Z.lxor (Z.lxor (Z.land x y) (Z.land x z)) (Z.land y z).
Definition bsig0 (x : Z) : Z := Z.lxor (Z.lxor (rotr 2 x) (rotr 13 x)) (rotr 22 x).
Definition bsig1 (x : Z) : Z := Z.lxor (Z.lxor (rotr 6 x) (rotr 11 x)) (rotr 25 x).
Definition ssig0 (x : Z) : Z := Z.lxor (Z.lxor (rotr 7 x) (rotr 18 x)) (Z.shiftr x 3).
Definition ssig1 (x : Z) : Z := Z.lxor (Z.lxor (rotr 17 x) (rotr 19 x)) (Z.shiftr x 10).

(** The first 64 primes; the round constants are the first 32 bits of the
    fractional parts of their cube roots, the initial hash value those of
    the square roots of the first 8. *)
Definition primes : list Z :=
  [2; 3; 5; 7; 11; 13; 17; 19; 23; 29; 31; 37; 41; 43; 47; 53; 59; 61; 67; 71;
   73; 79; 83; 89; 97; 101; 103; 107; 109; 113; 127; 131; 137; 139; 149; 151;
   157; 163; 167; 173; 179; 181; 191; 193; 197; 199; 211; 223; 227; 229; 233;
   239; 241; 251; 257; 263; 269; 271; 277; 281; 283; 293; 307; 311].

(** The integer cube root of [x], below [2 ^ bits], one bit at a time. *)
Fixpoint cube_root (bits : nat) (x acc : Z) : Z :=
  match bits with
  | O => acc
  | S b =>
      let c := acc + 2 ^ Z.of_nat b in
      if c * c * c <=? x then cube_root b x c else cube_root b x acc
  end.

Definition K : list Z :=
  Eval vm_compute in
    map (fun p => w32 (cube_root 36 (p * 2 ^ 96) 0)) primes.

Record state := mkState
  { ha : Z; hb : Z; hc : Z; hd : Z; he : Z; hf : Z; hg : Z; hh : Z }.

Definition root_bits (p : Z) : Z := w32 (Z.sqrt (p * 2 ^ 64)).

Definition initial : state :=
  Eval vm_compute in
    mkState (root_bits 2) (root_bits 3) (root_bits 5) (root_bits 7)
            (root_bits 11) (root_bits 13) (root_bits 17) (root_bits 19).

(** Message padding: a one bit, zeros, and the bit length on 64 bits. *)
Definition be_bytes (n : nat) (x : Z) : list Z :=
  map (fun i => Z.land (Z.shiftr x (8 * Z.of_nat i)) 255) (rev (seq 0 n)).

Definition pad (msg : list Z) : list Z :=
  let len := Z.of_nat (List.length msg) in
  let zeros := Z.to_nat ((55 - len) mod 64) in
  msg ++ [128] ++ repeat 0 zeros ++ be_bytes 8 (8 * len).

Fixpoint chunks (n : nat) (size : nat) (l : list Z) : list (list Z) :=
  match n with
  | O => []
  | S n' => firstn size l :: chunks n' size (skipn size l)
  end.

Definition be_word (bs : list Z) : Z :=
  fold_left (fun acc b => acc * 256 + b) bs 0.

(** The message schedule, newest word first. *)
Fixpoint extend (n : nat) (w : list Z) : list Z :=
  match n with
  | O => w
  | S n' =>
      let x := add32 (add32 (ssig1 (nth 1 w 0)) (nth 6 w 0))
                     (add32 (ssig0 (nth 14 w 0)) (nth 15 w 0)) in
      extend n' (x :: w)
  end.

Definition schedule (block : list Z) : list Z :=
  rev (extend 48 (rev (map be_word (chunks 16 4 block)))).

Definition round (s : state) (kw : Z * Z) : state :=
  let t1 := add32 (add32 (add32 (hh s) (bsig1 (he s)))
                         (add32 (Ch (he s) (hf s) (hg s)) (fst kw))) (snd kw) in
  let t2 := add32 (bsig0 (ha s)) (Maj (ha s) (hb s) (hc s)) in
  mkState (add32 t1 t2) (ha s) (hb s) (hc s) (add32 (hd s) t1) (he s) (hf s) (hg s).

Definition compress (s : state) (block : list Z) : state :=
  let r := fold_left round (combine K (schedule block)) s in
  mkState (add32 (ha s) (ha r)) (add32 (hb s) (hb r)) (add32 (hc s) (hc r))
          (add32 (hd s) (hd r)) (add32 (he s) (he r)) (add32 (hf s) (hf r))
          (add32 (hg s) (hg r)) (add32 (hh s) (hh r)).

Definition digest (msg : list Z) : state :=
  let p := pad msg in
  fold_left compress (chunks (List.length p / 64) 64 p) initial.

Definition hex_digit (d : Z) : char16 := if d <? 10 then 48 + d else 87 + d.

Definition hex_word (w : Z) : jsstring :=
  map (fun i => hex_digit (Z.land (Z.shiftr w (4 * Z.of_nat i)) 15))
      (rev (seq 0 8)).

(** [.digest("hex")]. *)
Definition hex (s : state) : jsstring :=
  hex_word (ha s) ++ hex_word (hb s) ++ hex_word (hc s) ++ hex_word (hd s)
  ++ hex_word (he s) ++ hex_word (hf s) ++ hex_word (hg s) ++ hex_word (hh s).

(** [crypto.createHash("sha256").update(s).digest("hex")]. *)
Definition sha256_hex (s : jsstring) : jsstring := hex (digest (utf8_encode s)).

End Sha256.

(** ** The JavaScript engine

    [toLowerCase], [normalize("NFKD")] and [Date] parsing are Unicode and
    locale tables of the runtime, not code of this repository: the
    development is parametric in them. *)

Class JsEngine := {
  toLowerCase : jsstring -> jsstring;
  normalize_NFKD : jsstring -> jsstring;
  (** [new Date(s).getTime()], [None] when it is [NaN]. *)
  Date_parse : jsstring -> option Z
}.

(** ** lib/utils.ts: the slug codec *)

Section SlugCodec.

Context {engine : JsEngine}.

Definition slugify (input : jsstring) : jsstring :=
  let s := toLowerCase input in
  let s := normalize_NFKD s in
  (* .replace(/[^\w\s-]/g, "") *)
  let s := filter (fun c => is_word c || is_space c || (c =? hyphen)) s in
  let s := trim s in
  (* .replace(/[\s_-]+/g, "-") *)
  let s := replace_runs
             (fun c => is_space c || (c =? underscore) || (c =? hyphen))
             [hyphen] false s in
  (* .replace(/^-+|-+$/g, "") *)
  drop_while_end (fun c => c =? hyphen) (drop_while (fun c => c =? hyphen) s).

Definition url_hash (url : jsstring) : jsstring :=
  slice0 10 (Sha256.sha256_hex url).

(** [slugify(title) || "job-opening"]. *)
Definition slug_base (title : jsstring) : jsstring :=
  match slugify title with
  | [] => js "job-opening"
  | b => b
  end.

Definition makeJobSlug (title url : jsstring) : jsstring :=
  let base := slug_base title in
  let hash := url_hash url in
  base ++ [hyphen] ++ hash.

Definition extractHashFromSlug (slug : jsstring) : jsstring :=
  let parts := split hyphen slug in
  match parts with
  | [] => []
  | _ => last parts []
  end.

End SlugCodec.

(** The last [n] code units of a string, and what precedes them. *)
Definition suffix_of (n : nat) (s : jsstring) : jsstring :=
  skipn (List.length s - n) s.

Definition prefix_of (n : nat) (s : jsstring) : jsstring :=
  firstn (List.length s - n) s.

(** An engine that is right on ASCII input: enough to run the examples. *)
Definition ascii_lower (c : char16) : char16 :=
  if (65 <=? c) && (c <=? 90) then c + 32 else c.

(** Digits-only timestamps parse; everything else is an invalid date. *)
Fixpoint decimal_value (acc : Z) (s : jsstring) : option Z :=
  match s with
  | [] => Some acc
  | c :: r =>
      if (48 <=? c) && (c <=? 57) then decimal_value (acc * 10 + (c - 48)) r
      else None
  end.

Definition ascii_engine : JsEngine := {|
  toLowerCase := map ascii_lower;
  normalize_NFKD := fun s => s;
  Date_parse := fun s => match s with [] => None | _ => decimal_value 0 s end
|}.

(** ** Encodings the HTTP request needs *)

Module Wire.

Definition base64_alphabet : jsstring :=
  js "ABCDEFGHIJKLMNOPQRSTUVWXYZabcdefghijklmnopqrstuvwxyz0123456789+/".

Definition b64 (i : Z) : char16 := nth (Z.to_nat i) base64_alphabet 0.

(** [Buffer.from(s).toString("base64")] on the bytes of [s]. *)
Fixpoint base64 (bytes : list Z) : jsstring :=
  match bytes with
  | [] => []
  | [x] => [b64 (Z.shiftr x 2); b64 (Z.shiftl (Z.land x 3) 4); 61; 61]
  | [x; y] =>
      [b64 (Z.shiftr x 2);
       b64 (Z.lor (Z.shiftl (Z.land x 3) 4) (Z.shiftr y 4));
       b64 (Z.shiftl (Z.land y 15) 2); 61]
  | x :: y :: z :: r =>
      [b64 (Z.shiftr x 2);
       b64 (Z.lor (Z.shiftl (Z.land x 3) 4) (Z.shiftr y 4));
       b64 (Z.lor (Z.shiftl (Z.land y 15) 2) (Z.shiftr z 6));
       b64 (Z.land z 63)] ++ base64 r
  end.

Definition upper_hex_digit (d : Z) : char16 := if d <? 10 then 48 + d else 55 + d.

(** One byte under the application/x-www-form-urlencoded serializer. *)
Definition form_byte (b : Z) : jsstring :=
  if b =? 32 then [43]
  else if is_word b || (b =? 42) || (b =? 45) || (b =? 46) then [b]
  else [37; upper_hex_digit (Z.shiftr b 4); upper_hex_digit (Z.land b 15)].

Definition form_encode (s : jsstring) : jsstring :=
  flat_map form_byte (Sha256.utf8_encode s).

Definition URLSearchParams := list (jsstring * jsstring).

(** [params.set(name, value)]: the first pair of that name takes the value
    and later ones go; a new name is appended. *)
Fixpoint params_set (name value : jsstring) (ps : URLSearchParams)
  : URLSearchParams :=
  match ps with
  | [] => [(name, value)]
  | (n, v) :: r =>
      if JsString.eqb n name
      then (n, value) :: filter (fun p => negb (JsString.eqb (fst p) name)) r
      else (n, v) :: params_set name value r
  end.

(** [params.toString()]. *)
Definition params_toString (ps : URLSearchParams) : jsstring :=
  join (js "&")
       (map (fun p => form_encode (fst p) ++ js "=" ++ form_encode (snd p)) ps).

End Wire.

(** ** lib/careerjet.ts: the data model *)

Inductive SalaryType := per_Y | per_M | per_W | per_D | per_H.
Inductive ContractType := contract_p | contract_c | contract_t | contract_i | contract_v.
Inductive WorkHours := hours_f | hours_p.

Record CareerjetJob := {
  title : jsstring;
  company : jsstring;
  date : jsstring;
  description : jsstring;
  locations : jsstring;
  salary : option jsstring;
  salary_currency_code : option jsstring;
  salary_max : option Z;
  salary_min : option Z;
  salary_type : option SalaryType;
  site : jsstring;
  url : jsstring;
  apply_url : option jsstring;
  slug : jsstring
}.

(** [CareerjetRawJob]: every field optional, and no [apply_url] among them. *)
Record CareerjetRawJob := {
  raw_title : option jsstring;
  raw_company : option jsstring;
  raw_date : option jsstring;
  raw_description : option jsstring;
  raw_locations : option jsstring;
  raw_salary : option jsstring;
  raw_salary_currency_code : option jsstring;
  raw_salary_max : option Z;
  raw_salary_min : option Z;
  raw_salary_type : option SalaryType;
  raw_site : option jsstring;
  raw_url : option jsstring
}.

(** [CareerjetSearchResponse]; at [J := CareerjetRawJob] it is the parsed
    body before [data.jobs] is replaced by the normalized records. *)
Record SearchResponse (J : Type) := {
  type : jsstring;
  hits : option Z;
  message : option jsstring;
  pages : option Z;
  response_time : option Z;
  jobs : option (list J);
  location_choices : option (list jsstring)
}.

Definition CareerjetSearchResponse := SearchResponse CareerjetJob.

Record CareerjetSearchCriteria := {
  keywords : option jsstring;
  location : option jsstring;
  contractType : option ContractType;
  workHours : option WorkHours;
  page : option Z;
  pageSize : option Z;
  radius : option Z
}.

Definition no_criteria : CareerjetSearchCriteria :=
  {| keywords := None; location := None; contractType := None;
     workHours := None; page := None; pageSize := None; radius := None |}.

Definition API_ENDPOINT : jsstring := js "https://search.api.careerjet.net/v4/query".
Definition DEFAULT_LOCALE : jsstring := js "en_US".
Definition DEFAULT_PAGE_SIZE : Z := 20.
Definition CACHE_TTL_SECONDS : Z := 600.
Definition JOB_CACHE_TTL_MS : Z := 1000 * 60 * 15.

(** ** The world around the module *)

(** What a [throw] carries: an [Error] instance with its message, or any
    other value. *)
Inductive Thrown :=
  | ErrorObject (msg : jsstring)
  | OtherValue (v : jsstring).

Record ProcessEnv := {
  CAREERJET_API_KEY : option jsstring;
  CAREERJET_REFERER : option jsstring;
  NEXT_PUBLIC_SITE_URL : option jsstring;
  CAREERJET_FALLBACK_IP : option jsstring;
  CAREERJET_FALLBACK_UA : option jsstring;
  NODE_ENV : option jsstring
}.

(** The inbound request headers [headers()] resolves to. *)
Record Headers := {
  x_forwarded_for : option jsstring;
  user_agent : option jsstring
}.

Record Request := {
  req_url : jsstring;
  Authorization : jsstring;
  Referer : jsstring
}.

(** A [Response] of [fetch]: [json] is what [response.json()] settles to,
    for a body of the shape [CareerjetSearchResponse] declares, whose [jobs]
    is absent or an array. *)
Record HttpResponse := {
  status : Z;
  statusText : jsstring;
  text : jsstring;
  json : Thrown + SearchResponse CareerjetRawJob
}.

Inductive FetchOutcome :=
  | Rejected (e : Thrown)
  | Responded (r : HttpResponse).

(** What the process cannot change: its environment, the request being
    served ([None] outside a request scope, where [headers()] throws) and
    the remote service. *)
Record Host := {
  env : ProcessEnv;
  inbound : option Headers;
  remote : Request -> FetchOutcome
}.

Record CacheEntry := { job : CareerjetJob; expiresAt : Z }.

(** A JS [Map] with string keys, in insertion order. *)
Definition JsMap (V : Type) := list (jsstring * V).

Fixpoint map_get {V} (k : jsstring) (m : JsMap V) : option V :=
  match m with
  | [] => None
  | (k', v) :: r => if JsString.eqb k' k then Some v else map_get k r
  end.

(** [m.set(k, v)]: an existing key keeps its place. *)
Fixpoint map_set {V} (k : jsstring) (v : V) (m : JsMap V) : JsMap V :=
  match m with
  | [] => [(k, v)]
  | (k', v') :: r =>
      if JsString.eqb k' k then (k', v) :: r else (k', v') :: map_set k v r
  end.

Definition map_delete {V} (k : jsstring) (m : JsMap V) : JsMap V :=
  filter (fun kv => negb (JsString.eqb (fst kv) k)) m.

Record ConsoleLine := { label : jsstring; logged : Thrown }.

(** What the process changes: the clock read by [Date.now()], the
    module-level [jobCache], the store behind [unstable_cache] (response and
    instant of the fetch), the requests sent so far, newest first, and the
    lines written by [console.error]. *)
Record Store := {
  clock : Z;
  jobCache : JsMap CacheEntry;
  dataCache : JsMap (CareerjetSearchResponse * Z);
  sent : list Request;
  console : list ConsoleLine
}.

Definition with_jobCache (c : JsMap CacheEntry) (s : Store) : Store :=
  {| clock := clock s; jobCache := c; dataCache := dataCache s;
     sent := sent s; console := console s |}.

Definition with_dataCache (c : JsMap (CareerjetSearchResponse * Z)) (s : Store)
  : Store :=
  {| clock := clock s; jobCache := jobCache s; dataCache := c;
     sent := sent s; console := console s |}.

Definition with_clock (t : Z) (s : Store) : Store :=
  {| clock := t; jobCache := jobCache s; dataCache := dataCache s;
     sent := sent s; console := console s |}.

(** ** The monad of module code: host, store and [throw] *)

Inductive Outcome (A : Type) :=
  | Returned (a : A)
  | Threw (e : Thrown).
Arguments Threw {A} e.

Definition Js (A : Type) := Host -> Store -> Outcome A * Store.

Definition ret {A} (a : A) : Js A := fun _ s => (Returned a, s).

Definition bind {A B} (m : Js A) (k : A -> Js B) : Js B :=
  fun h s =>
    match m h s with
    | (Returned a, s') => k a h s'
    | (Threw e, s') => (Threw e, s')
    end.

Definition throw {A} (e : Thrown) : Js A := fun _ s => (Threw e, s).

(** [try { body } catch (error) { handler }]. *)
Definition try_catch {A} (body : Js A) (handler : Thrown -> Js A) : Js A :=
  fun h s =>
    match body h s with
    | (Returned a, s') => (Returned a, s')
    | (Threw e, s') => handler e h s'
    end.

Definition ask : Js Host := fun h s => (Returned h, s).
Definition get_store : Js Store := fun _ s => (Returned s, s).
Definition put_store (s : Store) : Js unit := fun _ _ => (Returned tt, s).
Definition Date_now : Js Z := fun _ s => (Returned (clock s), s).

Definition log_line (l : jsstring) (e : Thrown) (s : Store) : Store :=
  {| clock := clock s; jobCache := jobCache s; dataCache := dataCache s;
     sent := sent s;
     console := {| label := l; logged := e |} :: console s |}.

Definition console_error (l : jsstring) (e : Thrown) : Js unit :=
  fun _ s => (Returned tt, log_line l e s).

Definition record_request (r : Request) (s : Store) : Store :=
  {| clock := clock s; jobCache := jobCache s; dataCache := dataCache s;
     sent := r :: sent s; console := console s |}.

(** [fetch]: the request is sent, then the remote service answers. *)
Definition fetch (r : Request) : Js HttpResponse :=
  fun h s =>
    match remote h r with
    | Rejected e => (Threw e, record_request r s)
    | Responded resp => (Returned resp, record_request r s)
    end.

Declare Scope js_scope.
Delimit Scope js_scope with js.
Notation "x <- m ;; k" := (bind m (fun x => k))
  (at level 61, m at next level, right associativity) : js_scope.
Notation "m ;;; k" := (bind m (fun _ => k))
  (at level 61, right associativity) : js_scope.

(** ** lib/careerjet.ts: the operations *)

Section Careerjet.

Context {engine : JsEngine}.
Open Scope js_scope.

(** [a || b] on strings: [undefined] and the empty string are falsy. *)
Definition truthy (o : option jsstring) : option jsstring :=
  match o with
  | Some (c :: r) => Some (c :: r)
  | _ => None
  end.

Definition or_default (o : option jsstring) (d : jsstring) : jsstring :=
  match truthy o with
  | Some v => v
  | None => d
  end.

(** [a ?? b]. *)
Definition nullish {A} (o : option A) (d : A) : A :=
  match o with
  | Some v => v
  | None => d
  end.

Definition emptyResponse (message : option jsstring) : CareerjetSearchResponse :=
  {| type := js "ERROR";
     message := message;
     hits := Some 0;
     pages := Some 1;
     response_time := None;
     jobs := Some [];
     location_choices := None |}.

Definition missing_key_message : jsstring :=
  js "Missing CAREERJET_API_KEY environment variable. Please set it in your environment.".

Definition ensureApiKey : Js jsstring :=
  h <- ask ;;
  match truthy (CAREERJET_API_KEY (env h)) with
  | None => throw (ErrorObject missing_key_message)
  | Some apiKey => ret apiKey
  end.

Definition buildAuthHeader : Js jsstring :=
  apiKey <- ensureApiKey ;;
  let credentials := Wire.base64 (Sha256.utf8_encode (apiKey ++ js ":")) in
  ret (js "Basic " ++ credentials).

Definition getReferer : Js jsstring :=
  h <- ask ;;
  ret (or_default (CAREERJET_REFERER (env h))
         (or_default (NEXT_PUBLIC_SITE_URL (env h))
            (js "https://jobhub.example.com"))).

Record RequestMeta := { ip : jsstring; userAgent : jsstring }.

(** What [getRequestMetadata] resolves to; it reads the host only. *)
Definition request_metadata (h : Host) : RequestMeta :=
  let fallback_ip := or_default (CAREERJET_FALLBACK_IP (env h)) (js "8.8.8.8") in
  let fallback_ua := or_default (CAREERJET_FALLBACK_UA (env h)) (js "JobHubBot/1.0") in
  match inbound h with
  | Some headerList =>
      let forwardedFor := nullish (x_forwarded_for headerList) [] in
      let first := hd_error (map trim (split 44 forwardedFor)) in
      {| ip := or_default first fallback_ip;
         userAgent := or_default (user_agent headerList) fallback_ua |}
  | None =>
      (* headers() threw: the catch branch *)
      {| ip := fallback_ip; userAgent := fallback_ua |}
  end.

Definition getRequestMetadata : Js RequestMeta :=
  h <- ask ;;
  ret (request_metadata h).

Definition contractType_code (c : ContractType) : jsstring :=
  match c with
  | contract_p => js "p" | contract_c => js "c" | contract_t => js "t"
  | contract_i => js "i" | contract_v => js "v"
  end.

Definition workHours_code (w : WorkHours) : jsstring :=
  match w with hours_f => js "f" | hours_p => js "p" end.

Definition set_if (name : jsstring) (value : option jsstring)
  (ps : Wire.URLSearchParams) : Wire.URLSearchParams :=
  match value with
  | Some v => Wire.params_set name v ps
  | None => ps
  end.

Definition buildQueryString (criteria : CareerjetSearchCriteria)
  (requestMeta : RequestMeta) : jsstring :=
  let params := [] in
  let params := Wire.params_set (js "locale_code") DEFAULT_LOCALE params in
  let params := Wire.params_set (js "page_size")
                  (String_of_Z (nullish (pageSize criteria) DEFAULT_PAGE_SIZE)) params in
  let params := Wire.params_set (js "page")
                  (String_of_Z (nullish (page criteria) 1)) params in
  let params := Wire.params_set (js "user_ip") (ip requestMeta) params in
  let params := Wire.params_set (js "user_agent") (userAgent requestMeta) params in
  let params := set_if (js "radius")
                  (match radius criteria with
                   | Some r => if r =? 0 then None else Some (String_of_Z r)
                   | None => None
                   end) params in
  let params := set_if (js "keywords") (truthy (keywords criteria)) params in
  let params := set_if (js "location") (truthy (location criteria)) params in
  let params := set_if (js "contract_type")
                  (option_map contractType_code (contractType criteria)) params in
  let params := set_if (js "work_hours")
                  (option_map workHours_code (workHours criteria)) params in
  Wire.params_toString params.

(** The cache key of a job, [extractHashFromSlug(job.slug)]. *)
Definition hash_of (j : CareerjetJob) : jsstring := extractHashFromSlug (slug j).

(** The [for (const job of jobs)] loop of [rememberJobs]. *)
Definition remember_into (expiresAt : Z) (jobs : list CareerjetJob)
  (cache : JsMap CacheEntry) : JsMap CacheEntry :=
  fold_left
    (fun c job =>
       let hash := extractHashFromSlug (slug job) in
       map_set hash {| job := job; expiresAt := expiresAt |} c)
    jobs cache.

Definition rememberJobs (jobs : list CareerjetJob) : Js unit :=
  now <- Date_now ;;
  let expiresAt := now + JOB_CACHE_TTL_MS in
  s <- get_store ;;
  put_store (with_jobCache (remember_into expiresAt jobs (jobCache s)) s).

Definition normalizeJob (raw : CareerjetRawJob) : CareerjetJob :=
  let slug := makeJobSlug (nullish (raw_title raw) (js "Job Opening"))
                          (nullish (raw_url raw) []) in
  {| title := nullish (raw_title raw) (js "Job Opening");
     company := nullish (raw_company raw) [];
     date := nullish (raw_date raw) [];
     description := nullish (raw_description raw) [];
     locations := nullish (raw_locations raw) [];
     salary := raw_salary raw;
     salary_currency_code := raw_salary_currency_code raw;
     salary_max := raw_salary_max raw;
     salary_min := raw_salary_min raw;
     salary_type := raw_salary_type raw;
     site := nullish (raw_site raw) [];
     url := nullish (raw_url raw) [];
     apply_url := Some (nullish (raw_url raw) []);
     slug := slug |}.

(** The callback given to [unstable_cache]: the fetch-and-parse step. *)
Definition fetch_and_parse (queryString : jsstring) : Js CareerjetSearchResponse :=
  authorization <- buildAuthHeader ;;
  referer <- getReferer ;;
  response <- fetch {| req_url := API_ENDPOINT ++ js "?" ++ queryString;
                       Authorization := authorization;
                       Referer := referer |} ;;
  if negb ((200 <=? status response) && (status response <=? 299)) then
    let message := text response in
    throw (ErrorObject
             (js "Careerjet API error (" ++ String_of_Z (status response)
              ++ js "): " ++ or_default (Some message) (statusText response)))
  else
    match json response with
    | inl e => throw e
    | inr data =>
        match jobs data with
        | Some raws =>
            let normalized := map normalizeJob raws in
            rememberJobs normalized ;;;
            ret {| type := type data; hits := hits data;
                   message := message data; pages := pages data;
                   response_time := response_time data;
                   jobs := Some normalized;
                   location_choices := location_choices data |}
        | None =>
            ret {| type := type data; hits := hits data;
                   message := message data; pages := pages data;
                   response_time := response_time data;
                   jobs := None;
                   location_choices := location_choices data |}
        end
    end.

(** [unstable_cache(cb, keyParts, { revalidate })], by its contract: a
    result stored for the same argument less than [revalidate] seconds ago
    is served without running the callback; otherwise the callback runs and
    a result it returns is stored, a throw passing through unstored. *)
Definition served (revalidate : Z) (arg : jsstring) (s : Store)
  : option CareerjetSearchResponse :=
  match map_get arg (dataCache s) with
  | Some (r, at_) => if clock s <? at_ + revalidate * 1000 then Some r else None
  | None => None
  end.

Definition unstable_cache (cb : jsstring -> Js CareerjetSearchResponse)
  (revalidate : Z) (arg : jsstring) : Js CareerjetSearchResponse :=
  s <- get_store ;;
  match served revalidate arg s with
  | Some r => ret r
  | None =>
      r <- cb arg ;;
      s' <- get_store ;;
      put_store (with_dataCache (map_set arg (r, clock s') (dataCache s')) s') ;;;
      ret r
  end.

Definition cachedSearch : jsstring -> Js CareerjetSearchResponse :=
  unstable_cache fetch_and_parse CACHE_TTL_SECONDS.

(** [error instanceof Error ? error.message : "Careerjet API unavailable"]. *)
Definition failure_message (error : Thrown) : jsstring :=
  match error with
  | ErrorObject m => m
  | OtherValue _ => js "Careerjet API unavailable"
  end.

(** [process.env.NODE_ENV !== "production"]. *)
Definition not_production (h : Host) : bool :=
  match NODE_ENV (env h) with
  | Some v => negb (JsString.eqb v (js "production"))
  | None => true
  end.

Definition searchJobs (criteria : CareerjetSearchCriteria)
  : Js CareerjetSearchResponse :=
  requestMeta <- getRequestMetadata ;;
  let queryString := buildQueryString criteria requestMeta in
  try_catch (cachedSearch queryString)
    (fun error =>
       h <- ask ;;
       (if not_production h
        then console_error (js "Careerjet search failed:") error
        else ret tt) ;;;
       ret (emptyResponse (Some (failure_message error)))).

Definition getJobFromCache (hash : jsstring) : Js (option CareerjetJob) :=
  s <- get_store ;;
  match map_get hash (jobCache s) with
  | None => ret None
  | Some cached =>
      now <- Date_now ;;
      if expiresAt cached <? now then
        put_store (with_jobCache (map_delete hash (jobCache s)) s) ;;;
        ret None
      else ret (Some (job cached))
  end.

(** The criteria of the search [findJobBySlug] falls back to: a copy of
    the caller's, with keywords rebuilt from the slug when it has none. *)
Definition resolver_criteria (slug_ : jsstring)
  (fallbackCriteria : CareerjetSearchCriteria) : CareerjetSearchCriteria :=
  match truthy (keywords fallbackCriteria) with
  | Some _ => fallbackCriteria
  | None =>
      {| keywords :=
           Some (replace_runs is_space [space] false
                   (join [space] (removelast (split hyphen slug_))));
         location := location fallbackCriteria;
         contractType := contractType fallbackCriteria;
         workHours := workHours fallbackCriteria;
         page := page fallbackCriteria;
         pageSize := pageSize fallbackCriteria;
         radius := radius fallbackCriteria |}
  end.

Definition findJobBySlug (slug_ : jsstring)
  (fallbackCriteria : CareerjetSearchCriteria) : Js (option CareerjetJob) :=
  let hash := extractHashFromSlug slug_ in
  cached <- getJobFromCache hash ;;
  match cached with
  | Some j => ret (Some j)
  | None =>
      let criteria := resolver_criteria slug_ fallbackCriteria in
      response <- searchJobs criteria ;;
      ret match jobs response with
          | Some items =>
              find (fun item => JsString.eqb (extractHashFromSlug (slug item)) hash)
                   items
          | None => None
          end
  end.

(** The [for ... of jobCache.entries()] loop of [getCachedJobsSnapshot]. *)
Fixpoint snapshot_loop (now : Z) (entries : JsMap CacheEntry)
  (result : list CareerjetJob) (cache : JsMap CacheEntry)
  : list CareerjetJob * JsMap CacheEntry :=
  match entries with
  | [] => (result, cache)
  | (hash, e) :: rest =>
      if expiresAt e >=? now
      then snapshot_loop now rest (result ++ [job e]) cache
      else snapshot_loop now rest result (map_delete hash cache)
  end.

(** An entry [getCachedJobsSnapshot] keeps at instant [now]. *)
Definition live (now : Z) (kv : jsstring * CacheEntry) : bool :=
  expiresAt (snd kv) >=? now.

Definition getCachedJobsSnapshot : Js (list CareerjetJob) :=
  now <- Date_now ;;
  s <- get_store ;;
  let '(result, cache) := snapshot_loop now (jobCache s) [] (jobCache s) in
  put_store (with_jobCache cache s) ;;;
  ret result.

(** The query [searchJobs] hands to [cachedSearch]. *)
Definition query_of (criteria : CareerjetSearchCriteria) (host : Host) : jsstring :=
  buildQueryString criteria (request_metadata host).

(** Between two stores the clock has not moved, and at most one request
    has gone out. *)
Definition same_clock (s s' : Store) : Prop := clock s' = clock s.

Definition at_most_one_request (s s' : Store) : Prop :=
  sent s' = sent s \/ exists r, sent s' = r :: sent s.

(** Keys of a [Map] are pairwise distinct. *)
Definition unique_keys {V} (m : JsMap V) : Prop := NoDup (map fst m).

(** Every entry sits under the hash of its own job's slug. *)
Definition well_keyed (m : JsMap CacheEntry) : Prop :=
  forall k e, In (k, e) m -> hash_of (job e) = k.

(** The three operations on the job cache, and the stores they can lead
    to from the empty cache of a freshly loaded module; the clock moves
    freely between operations. *)
Inductive CacheOp :=
  | op_remember (jobs : list CareerjetJob)
  | op_get (hash : jsstring)
  | op_snapshot.

Definition run_op (op : CacheOp) (h : Host) (s : Store) : Store :=
  match op with
  | op_remember jobs => snd (rememberJobs jobs h s)
  | op_get hash => snd (getJobFromCache hash h s)
  | op_snapshot => snd (getCachedJobsSnapshot h s)
  end.

Inductive reachable (h : Host) : Store -> Prop :=
  | reach_fresh (s : Store) : jobCache s = [] -> reachable h s
  | reach_step (s : Store) (op : CacheOp) (t : Z) :
      reachable h s -> reachable h (run_op op h (with_clock t s)).

End Careerjet.

(** ** app/sitemap.ts *)

Module Sitemap.

Inductive ChangeFrequency := hourly | daily.

Record Entry := {
  url : jsstring;
  lastModified : Z;
  changeFrequency : ChangeFrequency;
  priority : Q
}.

(** [siteUrl.replace(/\/$/, "")]. *)
Definition strip_trailing_slash (s : jsstring) : jsstring :=
  match rev s with
  | 47 :: r => rev r
  | _ => s
  end.

Section Route.

Context {engine : JsEngine}.
Open Scope js_scope.

Definition jobEntry (origin : jsstring) (now : Z) (j : CareerjetJob) : Entry :=
  let parsed := Date_parse (date j) in
  let lastModified := match parsed with
                      | None => now
                      | Some t => t
                      end in
  {| url := origin ++ js "/jobs/" ++ slug j;
     lastModified := lastModified;
     changeFrequency := daily;
     priority := 6 # 10 |}.

Definition homeEntry (origin : jsstring) (now : Z) : Entry :=
  {| url := origin ++ js "/";
     lastModified := now;
     changeFrequency := hourly;
     priority := 1 |}.

Definition default_origin : Js jsstring :=
  h <- ask ;;
  let siteUrl := nullish (NEXT_PUBLIC_SITE_URL (env h))
                         (js "https://jobhub.example.com") in
  ret (strip_trailing_slash siteUrl).

(** The job list the sitemap is built from: the snapshot, or when that is
    empty the jobs of a default search. *)
Definition sitemap_criteria : CareerjetSearchCriteria :=
  {| keywords := None; location := None; contractType := None;
     workHours := None; page := None; pageSize := Some 20; radius := None |}.

Definition sitemap_jobs : Js (list CareerjetJob) :=
  snapshot <- getCachedJobsSnapshot ;;
  match snapshot with
  | [] =>
      try_catch
        (response <- searchJobs sitemap_criteria ;;
         ret (nullish (jobs response) []))
        (fun error =>
           console_error (js "Failed to fetch jobs for sitemap:") error ;;;
           ret snapshot)
  | _ => ret snapshot
  end.

Definition sitemap : Js (list Entry) :=
  origin <- default_origin ;;
  jobs <- sitemap_jobs ;;
  now <- Date_now ;;
  let jobEntries := map (jobEntry origin now) jobs in
  ret (homeEntry origin now :: jobEntries).

End Route.

End Sitemap.

(** ** Concrete hosts and stores for the examples *)

Definition demo_env (key : option jsstring) : ProcessEnv :=
  {| CAREERJET_API_KEY := key;
     CAREERJET_REFERER := None;
     NEXT_PUBLIC_SITE_URL := Some (js "https://jobs.example.org/");
     CAREERJET_FALLBACK_IP := None;
     CAREERJET_FALLBACK_UA := None;
     NODE_ENV := Some (js "production") |}.

Definition demo_host (key : option jsstring) (answer : FetchOutcome) : Host :=
  {| env := demo_env key; inbound := None; remote := fun _ => answer |}.

Definition fresh_store (t : Z) : Store :=
  {| clock := t; jobCache := []; dataCache := []; sent := []; console := [] |}.

Definition http_500 : HttpResponse :=
  {| status := 500;
     statusText := js "Internal Server Error";
     text := [];
     json := inl (ErrorObject (js "Unexpected end of JSON input")) |}.

Definition demo_raw (t u : string) : CareerjetRawJob :=
  {| raw_title := Some (js t); raw_company := None; raw_date := None;
     raw_description := None; raw_locations := None; raw_salary := None;
     raw_salary_currency_code := None; raw_salary_max := None;
     raw_salary_min := None; raw_salary_type := None; raw_site := None;
     raw_url := Some (js u) |}.

Definition http_200 (raws : list CareerjetRawJob) : HttpResponse :=
  {| status := 200;
     statusText := js "OK";
     text := [];
     json := inr {| type := js "JOBS"; hits := Some (Z.of_nat (List.length raws));
                    message := None; pages := Some 1; response_time := None;
                    jobs := Some raws; location_choices := None |} |}.

Definition demo_job (t u : string) : CareerjetJob :=
  @normalizeJob ascii_engine (demo_raw t u).

(** Two jobs behind one URL: remembered under one key, listed twice. *)
Definition twin_host : Host :=
  demo_host (Some (js "secret"))
    (Responded (http_200 [demo_raw "Backend Engineer" "https://example.com/jobs/1";
                          demo_raw "Backend Engineer (m/f)" "https://example.com/jobs/1"])).

Definition one_job : CareerjetJob :=
  demo_job "Senior Backend Engineer" "https://example.com/jobs/123".

(** ** lib/utils.ts: [plainTextFromHtml] *)

Definition lt_sign : char16 := 60.
Definition gt_sign : char16 := 62.

(** [html.replace(/<[^>]+>/g, "")], read left to right.  [pending] is
    [None] outside a candidate tag; after a [<] it holds, newest first, the
    code units read since: a [>] closes the match when at least one unit was
    read, [<>] is no match and stays, and a candidate still open at the end
    of the input stays as it was written. *)
Fixpoint strip_tags (pending : option jsstring) (s : jsstring) : jsstring :=
  match s with
  | [] =>
      match pending with
      | None => []
      | Some buf => lt_sign :: rev buf
      end
  | c :: r =>
      match pending with
      | None =>
          if c =? lt_sign then strip_tags (Some []) r
          else c :: strip_tags None r
      | Some [] =>
          if c =? gt_sign then lt_sign :: gt_sign :: strip_tags None r
          else strip_tags (Some [c]) r
      | Some buf =>
          if c =? gt_sign then strip_tags None r
          else strip_tags (Some (c :: buf)) r
      end
  end.

Definition plainTextFromHtml (html : jsstring) : jsstring :=
  strip_tags None html.

Definition no_gt (s : jsstring) : bool := forallb (fun c => negb (c =? gt_sign)) s.
Definition no_lt (s : jsstring) : bool := forallb (fun c => negb (c =? lt_sign)) s.

(** [s.startsWith(p)] and [s.includes(p)]. *)
Fixpoint starts_with (p s : jsstring) : bool :=
  match p, s with
  | [], _ => true
  | _ :: _, [] => false
  | a :: p', b :: s' => (a =? b) && starts_with p' s'
  end.

Fixpoint includes (p s : jsstring) : bool :=
  starts_with p s
  || match s with
     | [] => false
     | _ :: s' => includes p s'
     end.

(** The alphabet of a slug base: ASCII letters and digits, and the hyphen. *)
Definition is_alnum (c : char16) : bool :=
  ((48 <=? c) && (c <=? 57)) || ((65 <=? c) && (c <=? 90))
  || ((97 <=? c) && (c <=? 122)).

Definition is_slug_char (c : char16) : bool := is_alnum c || (c =? hyphen).

(** No hyphen at either end and no two hyphens in a row. *)
Fixpoint no_double_hyphen (s : jsstring) : bool :=
  match s with
  | a :: ((b :: _) as r) => negb ((a =? hyphen) && (b =? hyphen)) && no_double_hyphen r
  | _ => true
  end.

Definition hyphen_free_ends (s : jsstring) : Prop :=
  hd 0 s <> hyphen /\ last s 0 <> hyphen.

Definition hyphen_free (s : jsstring) : bool :=
  forallb (fun c => negb (c =? hyphen)) s.

(** [s.split("-").join(" ")]. *)
Definition hyphens_to_spaces (s : jsstring) : jsstring :=
  map (fun c => if c =? hyphen then space else c) s.

(** ** app/robots.ts *)

Module Robots.

Record Rules := { userAgent : jsstring; allow : jsstring }.

Record t := { rules : Rules; sitemap : jsstring }.

Definition site_url (h : Host) : jsstring :=
  nullish (NEXT_PUBLIC_SITE_URL (env h)) (js "https://jobhub.example.com").

Definition robots : Js t :=
  (h <- ask ;;
   let siteUrl := site_url h in
   let sitemapUrl := Sitemap.strip_trailing_slash siteUrl ++ js "/sitemap.xml" in
   ret {| rules := {| userAgent := js "*"; allow := js "/" |};
          sitemap := sitemapUrl |})%js.

End Robots.

(** ** app/jobs/[slug]/page.tsx: metadata and structured data *)

Module JobPage.

Definition buildFallbackCriteria (keywords_ location_ : option jsstring)
  : CareerjetSearchCriteria :=
  {| keywords := truthy keywords_;
     location := truthy location_;
     contractType := None; workHours := None;
     page := None; pageSize := None; radius := None |}.

Record OpenGraph := {
  og_title : jsstring;
  og_description : jsstring;
  og_url : jsstring;
  og_type : jsstring
}.

Record Twitter := {
  tw_card : jsstring;
  tw_title : jsstring;
  tw_description : jsstring
}.

Record Metadata := {
  meta_title : jsstring;
  meta_description : jsstring;
  canonical : jsstring;
  openGraph : option OpenGraph;
  twitter : option Twitter
}.

(** U+2013, the dash of the social titles. *)
Definition en_dash : jsstring := [8211].

Definition createMetadata (found : option CareerjetJob) (slug_ : jsstring)
  : Js Metadata :=
  (match found with
   | None =>
       ret {| meta_title := js "Job not found | JobHub";
              meta_description :=
                js "The job you are looking for is no longer available. Explore more roles on JobHub.";
              canonical := js "/jobs/" ++ slug_;
              openGraph := None;
              twitter := None |}
   | Some j =>
       h <- ask ;;
       let siteUrl := nullish (NEXT_PUBLIC_SITE_URL (env h))
                              (js "https://jobhub.example.com") in
       let canonical_ := siteUrl ++ js "/jobs/" ++ slug_ in
       let cleanDescription :=
         slice0 200 (plainTextFromHtml (description j)) in
       let social :=
         title j ++ js " " ++ en_dash ++ js " "
         ++ or_default (Some (company j)) (js "Hiring now") in
       ret {| meta_title :=
                title j ++ js " at "
                ++ or_default (Some (company j)) (js "Unknown company")
                ++ js " | JobHub";
              meta_description := cleanDescription;
              canonical := canonical_;
              openGraph := Some {| og_title := social;
                                   og_description := cleanDescription;
                                   og_url := canonical_;
                                   og_type := js "article" |};
              twitter := Some {| tw_card := js "summary_large_image";
                                 tw_title := social;
                                 tw_description := cleanDescription |} |}
   end)%js.

Record MonetaryAmount := {
  currency : jsstring;
  minValue : Z;
  maxValue : Z;
  unitText : jsstring
}.

Record JobPosting := {
  posting_title : jsstring;
  posting_description : jsstring;
  datePosted : option jsstring;
  employmentType : jsstring;
  organization_name : jsstring;
  organization_sameAs : option jsstring;
  addressLocality : jsstring;
  addressCountry : jsstring;
  jobLocationType : jsstring;
  directApply : bool;
  identifier_name : jsstring;
  identifier_value : jsstring;
  applicantLocationRequirements : jsstring;
  industry : jsstring;
  posting_url : jsstring;
  posting_sameAs : jsstring;
  baseSalary : option MonetaryAmount;
  applicationContact_url : jsstring
}.

Definition unit_of (t : option SalaryType) : jsstring :=
  match t with
  | Some per_H => js "HOUR"
  | Some per_D => js "DAY"
  | Some per_W => js "WEEK"
  | Some per_M => js "MONTH"
  | _ => js "YEAR"
  end.

(** [a && b] on optional numbers: present and neither zero. *)
Definition both_truthy (a b : option Z) : option (Z * Z) :=
  match a, b with
  | Some x, Some y => if (x =? 0) || (y =? 0) then None else Some (x, y)
  | _, _ => None
  end.

Section StructuredData.

Context {engine : JsEngine}.

(** [Date.prototype.toISOString], of the runtime. *)
Variable toISOString : Z -> jsstring.

Definition jobPostingStructuredData (j : CareerjetJob) (slug_ : jsstring)
  : Js JobPosting :=
  (h <- ask ;;
   let siteUrl := nullish (NEXT_PUBLIC_SITE_URL (env h))
                          (js "https://jobhub.example.com") in
   let applyLink := nullish (apply_url j) (url j) in
   let isoDate := option_map toISOString (Date_parse (date j)) in
   let baseSalary_ :=
     match both_truthy (salary_min j) (salary_max j) with
     | Some (lo, hi) =>
         Some {| currency := nullish (salary_currency_code j) (js "USD");
                 minValue := lo;
                 maxValue := hi;
                 unitText := unit_of (salary_type j) |}
     | None => None
     end in
   ret {| posting_title := title j;
          posting_description := description j;
          datePosted := isoDate;
          employmentType := js "OTHER";
          organization_name := or_default (Some (company j)) (js "Confidential");
          organization_sameAs :=
            match site j with
            | [] => None
            | s => Some (js "https://" ++ s)
            end;
          addressLocality := or_default (Some (locations j)) (js "Remote");
          addressCountry := js "US";
          jobLocationType :=
            if includes (js "remote") (toLowerCase (locations j))
            then js "TELECOMMUTE" else js "ONSITE";
          directApply := true;
          identifier_name := js "JobHub";
          identifier_value := slug_;
          applicantLocationRequirements := locations j;
          industry := site j;
          posting_url := siteUrl ++ js "/jobs/" ++ slug_;
          posting_sameAs := url j;
          baseSalary := baseSalary_;
          applicationContact_url := applyLink |})%js.

Definition generateMetadata (slug_ : jsstring)
  (keywords_ location_ : option jsstring) : Js Metadata :=
  (let fallback := buildFallbackCriteria keywords_ location_ in
   found <- findJobBySlug slug_ fallback ;;
   createMetadata found slug_)%js.

End StructuredData.

End JobPage.

(** ** Names for what the search client sends and builds *)

Section SearchShapes.

Context {engine : JsEngine}.

(** The request of [cachedSearch]'s callback for a query and a credential. *)
Definition search_request (q : jsstring) (h : Host) (key : jsstring) : Request :=
  {| req_url := API_ENDPOINT ++ js "?" ++ q;
     Authorization :=
       js "Basic " ++ Wire.base64 (Sha256.utf8_encode (key ++ js ":"));
     Referer := or_default (CAREERJET_REFERER (env h))
                  (or_default (NEXT_PUBLIC_SITE_URL (env h))
                     (js "https://jobhub.example.com")) |}.

(** The message of the error thrown on a response that is not [ok]. *)
Definition http_error_message (resp : HttpResponse) : jsstring :=
  js "Careerjet API error (" ++ String_of_Z (status resp) ++ js "): "
  ++ or_default (Some (text resp)) (statusText resp).

Definition response_ok (resp : HttpResponse) : bool :=
  (200 <=? status resp) && (status resp <=? 299).

(** The parsed body with its [jobs] replaced. *)
Definition with_jobs (data : SearchResponse CareerjetRawJob)
  (js_ : option (list CareerjetJob)) : CareerjetSearchResponse :=
  {| type := type data; hits := hits data; message := message data;
     pages := pages data; response_time := response_time data;
     jobs := js_; location_choices := location_choices data |}.

(** One optional query parameter. *)
Definition opt_param (name : jsstring) (value : option jsstring)
  : Wire.URLSearchParams :=
  match value with
  | Some v => [(name, v)]
  | None => []
  end.

(** The parameters of a search, in the order they are serialized. *)
Definition query_params (criteria : CareerjetSearchCriteria)
  (requestMeta : RequestMeta) : Wire.URLSearchParams :=
  [(js "locale_code", js "en_US");
   (js "page_size", String_of_Z (nullish (pageSize criteria) 20));
   (js "page", String_of_Z (nullish (page criteria) 1));
   (js "user_ip", ip requestMeta);
   (js "user_agent", userAgent requestMeta)]
  ++ opt_param (js "radius")
       (match radius criteria with
        | Some r => if r =? 0 then None else Some (String_of_Z r)
        | None => None
        end)
  ++ opt_param (js "keywords") (truthy (keywords criteria))
  ++ opt_param (js "location") (truthy (location criteria))
  ++ opt_param (js "contract_type")
       (option_map contractType_code (contractType criteria))
  ++ opt_param (js "work_hours")
       (option_map workHours_code (workHours criteria)).

End SearchShapes.

Definition slash : char16 := 47.

(** ** More concrete values for the examples *)

Definition twin_raws : list CareerjetRawJob :=
  [demo_raw "Backend Engineer" "https://example.com/jobs/1";
   demo_raw "Backend Engineer (m/f)" "https://example.com/jobs/1"].

Definition twin_data : SearchResponse CareerjetRawJob :=
  {| type := js "JOBS"; hits := Some 2; message := None; pages := Some 1;
     response_time := None; jobs := Some twin_raws; location_choices := None |}.

Definition locations_data : SearchResponse CareerjetRawJob :=
  {| type := js "LOCATIONS"; hits := Some 0; message := None; pages := None;
     response_time := None; jobs := None;
     location_choices := Some [js "Austin, TX"; js "Austin, MN"] |}.

Definition http_locations : HttpResponse :=
  {| status := 200; statusText := js "OK"; text := [];
     json := inr locations_data |}.

Definition locations_host : Host :=
  demo_host (Some (js "secret")) (Responded http_locations).

Definition failing_host : Host :=
  demo_host (Some (js "secret")) (Responded http_500).

Definition one_entry_store : Store :=
  {| clock := 5;
     jobCache := [(hash_of one_job, {| job := one_job; expiresAt := 900000 |})];
     dataCache := []; sent := []; console := [] |}.

(** ** What the runtime throws, and which numbers it prints in full *)

(** An [Error] instance with a non-empty message. *)
Definition has_message (e : Thrown) : Prop :=
  exists m, e = ErrorObject m /\ m <> [].

(** [fetch] rejects with a [TypeError] or a [DOMException] and
    [response.json()] with a [SyntaxError] or a [TypeError]: each an [Error]
    carrying a message. *)
Definition throws_errors (h : Host) : Prop :=
  forall req,
    match remote h req with
    | Rejected e => has_message e
    | Responded resp =>
        match json resp with
        | inl e => has_message e
        | inr _ => True
        end
    end.

(** [Number.isSafeInteger]. *)
Definition safe_integer (n : Z) : Prop := - 2 ^ 53 < n < 2 ^ 53.

Definition safe_option (o : option Z) : Prop :=
  match o with
  | Some n => safe_integer n
  | None => True
  end.

(** Criteria whose numbers are safe integers. *)
Definition safe_criteria (c : CareerjetSearchCriteria) : Prop :=
  safe_option (page c) /\ safe_option (pageSize c) /\ safe_option (radius c).

Definition twin_a : CareerjetJob :=
  demo_job "Backend Engineer" "https://example.com/jobs/1".

Definition twin_b : CareerjetJob :=
  demo_job "Backend Engineer (m/f)" "https://example.com/jobs/1".

Example sha256_abc :
  Sha256.sha256_hex (js "abc")
  = js "ba7816bf8f01cfea414140de5dae2223b00361a396177a9cb410ff61f20015ad".
Proof. vm_compute. reflexivity. Qed.

Example sha256_empty :
  Sha256.sha256_hex (js "")
  = js "e3b0c44298fc1c149afbf4c8996fb92427ae41e4649b934ca495991b7852b855".
Proof. vm_compute. reflexivity. Qed.

Example sha256_two_blocks :
  Sha256.sha256_hex
    (js "abcdbcdecdefdefgefghfghighijhijkijkljklmklmnlmnomnopnopq")
  = js "248d6a61d20638b8e5c026930c3e6039a33ce45964ff2167f6ecedd419db06c1".
Proof. vm_compute. reflexivity. Qed.

Example String_of_Z_500 : String_of_Z 500 = js "500".
Proof. reflexivity. Qed.

Example makeJobSlug_senior :
  @makeJobSlug ascii_engine (js "Senior Backend Engineer")
                            (js "https://example.com/jobs/123")
  = js "senior-backend-engineer-" ++
    slice0 10 (Sha256.sha256_hex (js "https://example.com/jobs/123")).
Proof. vm_compute. reflexivity. Qed.

Example slugify_messy :
  @slugify ascii_engine (js "  --C++ / Rust_Dev (m/f)!  ") = js "c-rust-dev-mf".
Proof. vm_compute. reflexivity. Qed.

Example extractHash_ghost :
  extractHashFromSlug (js "ghost-role-abc123def0") = js "abc123def0".
Proof. reflexivity. Qed.

Example base64_key : Wire.base64 (Sha256.utf8_encode (js "secret:")) = js "c2VjcmV0Og==".
Proof. reflexivity. Qed.

Example round_constants :
  nth 0 Sha256.K 0 = 0x428a2f98 /\ nth 63 Sha256.K 0 = 0xc67178f2
  /\ Sha256.ha Sha256.initial = 0x6a09e667 /\ Sha256.hh Sha256.initial = 0x5be0cd19.
Proof. repeat split. Qed.

(** * Properties *)

(** ** Strings *)

Lemma eqb_eq (s t : jsstring) : JsString.eqb s t = true <-> s = t.
Proof.
  revert t; induction s as [|c s IH]; intros [|d t]; simpl; split;
    try congruence; try reflexivity.
  - intros E. apply andb_true_iff in E as [E1 E2].
    apply Z.eqb_eq in E1. apply IH in E2. congruence.
  - intros E. injection E as -> ->. rewrite Z.eqb_refl. simpl. now apply IH.
Qed.

Lemma eqb_refl (s : jsstring) : JsString.eqb s s = true.
Proof. now apply eqb_eq. Qed.

Lemma eqb_neq (s t : jsstring) : JsString.eqb s t = false <-> s <> t.
Proof.
  split.
  - intros E Heq. apply eqb_eq in Heq. congruence.
  - intros N. destruct (JsString.eqb s t) eqn:E; [|reflexivity].
    apply eqb_eq in E. contradiction.
Qed.

Lemma split_not_nil (sep : char16) (s : jsstring) : split sep s <> [].
Proof.
  destruct s as [|c r]; simpl; [discriminate|].
  destruct (c =? sep); [discriminate|].
  destruct (split sep r); discriminate.
Qed.

Lemma split_without_sep (sep : char16) (s : jsstring) :
  forallb (fun c => negb (c =? sep)) s = true -> split sep s = [s].
Proof.
  induction s as [|c r IH]; simpl; [reflexivity|].
  intros E. apply andb_true_iff in E as [E1 E2].
  apply negb_true_iff in E1. rewrite E1, (IH E2). reflexivity.
Qed.

Lemma last_cons_not_nil {A} (x : A) (l : list A) (d : A) :
  l <> [] -> last (x :: l) d = last l d.
Proof. destruct l; [contradiction|reflexivity]. Qed.

Lemma last_split_app (sep : char16) (a b : jsstring) :
  last (split sep (a ++ sep :: b)) [] = last (split sep b) [].
Proof.
  induction a as [|c a IH]; simpl.
  - rewrite Z.eqb_refl. apply last_cons_not_nil, split_not_nil.
  - destruct (c =? sep).
    + rewrite last_cons_not_nil by apply split_not_nil. exact IH.
    + destruct (split sep (a ++ sep :: b)) as [|p ps] eqn:E.
      * now apply split_not_nil in E.
      * destruct ps as [|q qs]; [|exact IH].
        (* a single part would mean no separator was seen *)
        exfalso. clear IH. revert p E.
        induction a as [|c' a IHa]; simpl; intros p E.
        -- rewrite Z.eqb_refl in E.
           destruct (split sep b) eqn:Eb; [now apply split_not_nil in Eb|].
           discriminate.
        -- destruct (c' =? sep).
           ++ destruct (split sep (a ++ sep :: b)) eqn:Eb;
                [now apply split_not_nil in Eb | discriminate].
           ++ destruct (split sep (a ++ sep :: b)) as [|p' [|q' ps']] eqn:Eb.
              ** now apply split_not_nil in Eb.
              ** eapply IHa. reflexivity.
              ** discriminate.
Qed.

Lemma extractHash_suffix (base h : jsstring) :
  forallb (fun c => negb (c =? hyphen)) h = true ->
  extractHashFromSlug (base ++ [hyphen] ++ h) = h.
Proof.
  intros Hh. unfold extractHashFromSlug.
  destruct (split hyphen (base ++ [hyphen] ++ h)) eqn:E.
  - now apply split_not_nil in E.
  - rewrite <- E. simpl app. rewrite last_split_app.
    rewrite (split_without_sep _ _ Hh). reflexivity.
Qed.

(** ** The digest is 64 lowercase hexadecimal characters *)

Lemma nibble_range (x : Z) : 0 <= Z.land x 15 < 16.
Proof.
  change 15 with (Z.ones 4). rewrite Z.land_ones by lia.
  apply Z.mod_pos_bound. reflexivity.
Qed.

Lemma hex_digit_lower (d : Z) :
  0 <= d < 16 -> is_lower_hex (Sha256.hex_digit d) = true.
Proof.
  intros Hd. unfold Sha256.hex_digit, is_lower_hex.
  destruct (d <? 10) eqn:E.
  - apply Z.ltb_lt in E. apply orb_true_iff. left.
    apply andb_true_iff. split; apply Z.leb_le; lia.
  - apply Z.ltb_ge in E. apply orb_true_iff. right.
    apply andb_true_iff. split; apply Z.leb_le; lia.
Qed.

Lemma hex_word_length (w : Z) : List.length (Sha256.hex_word w) = 8%nat.
Proof. reflexivity. Qed.

Lemma hex_word_lower (w : Z) : forallb is_lower_hex (Sha256.hex_word w) = true.
Proof.
  unfold Sha256.hex_word. rewrite forallb_forall. intros c Hc.
  apply in_map_iff in Hc as [i [<- _]].
  apply hex_digit_lower, nibble_range.
Qed.

Lemma sha256_hex_length (s : jsstring) :
  List.length (Sha256.sha256_hex s) = 64%nat.
Proof.
  unfold Sha256.sha256_hex, Sha256.hex.
  repeat rewrite length_app. repeat rewrite hex_word_length. reflexivity.
Qed.

Lemma sha256_hex_lower (s : jsstring) :
  forallb is_lower_hex (Sha256.sha256_hex s) = true.
Proof.
  unfold Sha256.sha256_hex, Sha256.hex.
  repeat rewrite forallb_app. repeat rewrite hex_word_lower. reflexivity.
Qed.

Lemma forallb_firstn {A} (p : A -> bool) (n : nat) (l : list A) :
  forallb p l = true -> forallb p (firstn n l) = true.
Proof.
  revert n; induction l as [|x l IH]; intros [|n]; simpl; auto.
  intros E. apply andb_true_iff in E as [-> E]. simpl. now apply IH.
Qed.

Lemma url_hash_length (u : jsstring) : List.length (url_hash u) = 10%nat.
Proof.
  unfold url_hash, slice0. rewrite length_firstn, sha256_hex_length. reflexivity.
Qed.

Lemma url_hash_lower (u : jsstring) : forallb is_lower_hex (url_hash u) = true.
Proof. apply forallb_firstn, sha256_hex_lower. Qed.

Lemma lower_hex_not_hyphen (s : jsstring) :
  forallb is_lower_hex s = true ->
  forallb (fun c => negb (c =? hyphen)) s = true.
Proof.
  rewrite !forallb_forall. intros Hs c Hc. specialize (Hs c Hc).
  unfold is_lower_hex, hyphen in *. apply negb_true_iff, Z.eqb_neq.
  intros ->. discriminate.
Qed.

(** ** The slug codec *)

Section SlugCodecFacts.

Context {engine : JsEngine}.

Lemma makeJobSlug_factors (title u : jsstring) :
  makeJobSlug title u = slug_base title ++ [hyphen] ++ url_hash u.
Proof. reflexivity. Qed.

Lemma hash_of_made_slug (title u : jsstring) :
  extractHashFromSlug (makeJobSlug title u) = url_hash u.
Proof.
  rewrite makeJobSlug_factors.
  apply extractHash_suffix, lower_hex_not_hyphen, url_hash_lower.
Qed.

(** C5: when the title is non-empty after normalization, the hash extracted
    from the slug made of a title and a URL is exactly 10 lowercase
    hexadecimal characters, the first 10 of the SHA-256 hex digest of the
    URL. *)
Theorem extractHash_makeJobSlug (title u : jsstring) :
  slugify title <> [] ->
  let h := extractHashFromSlug (makeJobSlug title u) in
  List.length h = 10%nat
  /\ forallb is_lower_hex h = true
  /\ h = firstn 10 (Sha256.sha256_hex u).
Proof.
  intros _ h. subst h. rewrite hash_of_made_slug.
  split; [apply url_hash_length|]. split; [apply url_hash_lower|reflexivity].
Qed.

Lemma slug_suffix (title u : jsstring) :
  suffix_of 10 (makeJobSlug title u) = url_hash u.
Proof.
  rewrite makeJobSlug_factors. unfold suffix_of.
  rewrite app_assoc, length_app, url_hash_length.
  replace (List.length (slug_base title ++ [hyphen]) + 10 - 10)%nat
    with (List.length (slug_base title ++ [hyphen]) + 0)%nat by lia.
  rewrite skipn_app, Nat.add_0_r, skipn_all.
  replace (List.length (slug_base title ++ [hyphen])
           - List.length (slug_base title ++ [hyphen]))%nat with 0%nat by lia.
  reflexivity.
Qed.

Lemma slug_prefix (title u : jsstring) :
  prefix_of 10 (makeJobSlug title u) = slug_base title ++ [hyphen].
Proof.
  rewrite makeJobSlug_factors. unfold prefix_of.
  rewrite app_assoc, length_app, url_hash_length.
  replace (List.length (slug_base title ++ [hyphen]) + 10 - 10)%nat
    with (List.length (slug_base title ++ [hyphen]) + 0)%nat by lia.
  rewrite firstn_app_2. simpl. now rewrite app_nil_r.
Qed.

(** C6: [makeJobSlug] gives equal slugs on equal arguments, and a slug is a
    title-derived base, a hyphen and a 10-character lowercase hexadecimal
    suffix derived from the URL alone: with the title fixed, two URLs give
    slugs that agree on everything before the last 10 characters; with the
    URL fixed, two titles give slugs with the same last 10 characters. *)
Theorem makeJobSlug_deterministic_and_factored :
  (forall t1 t2 u1 u2 : jsstring,
      t1 = t2 -> u1 = u2 -> makeJobSlug t1 u1 = makeJobSlug t2 u2)
  /\ (forall t u : jsstring,
         makeJobSlug t u = slug_base t ++ [hyphen] ++ url_hash u
         /\ List.length (url_hash u) = 10%nat
         /\ forallb is_lower_hex (url_hash u) = true)
  /\ (forall t u1 u2 : jsstring,
         prefix_of 10 (makeJobSlug t u1) = prefix_of 10 (makeJobSlug t u2))
  /\ (forall t1 t2 u : jsstring,
         suffix_of 10 (makeJobSlug t1 u) = suffix_of 10 (makeJobSlug t2 u)).
Proof.
  split; [intros; subst; reflexivity|].
  split.
  { intros t u. split; [apply makeJobSlug_factors|].
    split; [apply url_hash_length | apply url_hash_lower]. }
  split.
  - intros t u1 u2. now rewrite !slug_prefix.
  - intros t1 t2 u. now rewrite !slug_suffix.
Qed.

End SlugCodecFacts.

(** The hypothesis of C5 is met by an ordinary title. *)
Lemma extractHash_makeJobSlug_witness :
  @slugify ascii_engine (js "Senior Backend Engineer") <> []
  /\ List.length
       (extractHashFromSlug
          (@makeJobSlug ascii_engine (js "Senior Backend Engineer")
                        (js "https://example.com/jobs/123"))) = 10%nat.
Proof.
  split.
  - vm_compute. discriminate.
  - apply (@extractHash_makeJobSlug ascii_engine).
    vm_compute. discriminate.
Defined.

(** ** JS maps *)

Section JsMapFacts.

Variable V : Type.
Implicit Types (m : JsMap V) (k : jsstring) (v : V).

Lemma map_get_set_same m k v : map_get k (map_set k v m) = Some v.
Proof.
  induction m as [|[k' v'] m IH]; simpl.
  - now rewrite eqb_refl.
  - destruct (JsString.eqb k' k) eqn:E; simpl; rewrite E; auto.
Qed.

Lemma map_get_set_other m k k' v :
  k' <> k -> map_get k (map_set k' v m) = map_get k m.
Proof.
  intros N. induction m as [|[k0 v0] m IH]; simpl.
  - apply eqb_neq in N. now rewrite N.
  - destruct (JsString.eqb k0 k') eqn:E; simpl.
    + apply eqb_eq in E. subst k0. apply eqb_neq in N. now rewrite N.
    + now rewrite IH.
Qed.

Lemma map_get_delete_same m k : map_get k (map_delete k m) = None.
Proof.
  induction m as [|[k' v'] m IH]; simpl; [reflexivity|].
  destruct (JsString.eqb k' k) eqn:E; simpl; [exact IH|]. now rewrite E.
Qed.

Lemma map_get_In m k v : map_get k m = Some v -> In (k, v) m.
Proof.
  induction m as [|[k' v'] m IH]; simpl; [discriminate|].
  destruct (JsString.eqb k' k) eqn:E.
  - apply eqb_eq in E. intros [= ->]. left. congruence.
  - intros G. right. auto.
Qed.

Lemma map_get_None m k : map_get k m = None -> forall v, ~ In (k, v) m.
Proof.
  induction m as [|[k' v'] m IH]; simpl; [tauto|].
  destruct (JsString.eqb k' k) eqn:E; [discriminate|].
  intros G v [[= -> _]|Hin].
  - now rewrite eqb_refl in E.
  - eapply IH; eauto.
Qed.

Lemma In_map_set m k v k' v' :
  In (k', v') (map_set k v m) -> (k' = k /\ v' = v) \/ In (k', v') m.
Proof.
  induction m as [|[k0 v0] m IH]; simpl.
  - intros [[= <- <-]|[]]. now left.
  - destruct (JsString.eqb k0 k) eqn:E; simpl.
    + apply eqb_eq in E. subst k0. intros [[= <- <-]|Hin]; auto.
    + intros [Heq|Hin]; auto. destruct (IH Hin); auto.
Qed.

Lemma In_map_delete m k k' v' :
  In (k', v') (map_delete k m) <-> In (k', v') m /\ k' <> k.
Proof.
  unfold map_delete. rewrite filter_In. simpl.
  rewrite negb_true_iff, eqb_neq. tauto.
Qed.

Lemma keys_map_set m k v :
  forall k', In k' (map fst (map_set k v m)) <-> k' = k \/ In k' (map fst m).
Proof.
  induction m as [|[k0 v0] m IH]; simpl; intros k'.
  - intuition congruence.
  - destruct (JsString.eqb k0 k) eqn:E; simpl.
    + apply eqb_eq in E. subst k0. intuition congruence.
    + rewrite IH. intuition congruence.
Qed.

Lemma unique_keys_set m k v : unique_keys m -> unique_keys (map_set k v m).
Proof.
  unfold unique_keys. induction m as [|[k0 v0] m IH]; simpl; intros U.
  - constructor; [intros []|constructor].
  - inversion U as [|? ? Hnotin U']; subst.
    destruct (JsString.eqb k0 k) eqn:E; simpl.
    + constructor; assumption.
    + constructor; [|auto]. rewrite keys_map_set. intros [->|Hin]; [|auto].
      now rewrite eqb_refl in E.
Qed.

Lemma unique_keys_filter m (p : jsstring * V -> bool) :
  unique_keys m -> unique_keys (filter p m).
Proof.
  unfold unique_keys. induction m as [|[k0 v0] m IH]; simpl; intros U; [assumption|].
  inversion U as [|? ? Hnotin U']; subst.
  destruct (p (k0, v0)); simpl; [|auto].
  constructor; [|auto]. intros Hin. apply Hnotin.
  apply in_map_iff in Hin as [[k1 v1] [<- Hin]].
  apply filter_In in Hin as [Hin _]. apply in_map_iff. now exists (k1, v1).
Qed.

Lemma unique_keys_functional m k v v' :
  unique_keys m -> In (k, v) m -> In (k, v') m -> v = v'.
Proof.
  unfold unique_keys. induction m as [|[k0 v0] m IH]; simpl; intros U; [tauto|].
  inversion U as [|? ? Hnotin U']; subst.
  intros [[= -> ->]|H1] [[= <-]|H2]; auto.
  - exfalso. apply Hnotin. apply in_map_iff. now exists (k, v').
  - subst. exfalso. apply Hnotin. apply in_map_iff. now exists (k0, v).
Qed.

End JsMapFacts.

(** ** The short-lived job cache *)

Section JobCacheFacts.

Context {engine : JsEngine}.

Lemma remember_into_app (e : Z) (l1 l2 : list CareerjetJob) (c : JsMap CacheEntry) :
  remember_into e (l1 ++ l2) c = remember_into e l2 (remember_into e l1 c).
Proof. unfold remember_into. apply fold_left_app. Qed.

(** After the loop of [rememberJobs], a hash is bound to the last job of
    the list that carries it, or is as it was. *)
Lemma map_get_remember_into (e : Z) (jobs : list CareerjetJob)
  (c : JsMap CacheEntry) (h : jsstring) :
  map_get h (remember_into e jobs c)
  = match find (fun j => JsString.eqb (hash_of j) h) (rev jobs) with
    | Some j => Some {| job := j; expiresAt := e |}
    | None => map_get h c
    end.
Proof.
  induction jobs as [|j jobs IH] using rev_ind; [reflexivity|].
  rewrite remember_into_app, rev_app_distr. simpl.
  fold (hash_of j). destruct (JsString.eqb (hash_of j) h) eqn:E.
  - apply eqb_eq in E. subst h. apply map_get_set_same.
  - apply eqb_neq in E. rewrite map_get_set_other by assumption. exact IH.
Qed.

Lemma rememberJobs_run (jobs : list CareerjetJob) (host : Host) (s : Store) :
  rememberJobs jobs host s
  = (Returned tt,
     with_jobCache (remember_into (clock s + JOB_CACHE_TTL_MS) jobs (jobCache s)) s).
Proof. reflexivity. Qed.

Lemma getJobFromCache_run (h : jsstring) (host : Host) (s : Store) :
  getJobFromCache h host s
  = match map_get h (jobCache s) with
    | None => (Returned None, s)
    | Some cached =>
        if expiresAt cached <? clock s
        then (Returned None, with_jobCache (map_delete h (jobCache s)) s)
        else (Returned (Some (job cached)), s)
    end.
Proof.
  unfold getJobFromCache, bind, get_store, Date_now, put_store, ret.
  destruct (map_get h (jobCache s)) as [cached|]; [|reflexivity].
  destruct (expiresAt cached <? clock s); reflexivity.
Qed.

(** C3, as the code has it: [rememberJobs] on a list, then
    [getJobFromCache] on a hash carried
    by a job of the list while the clock has not passed the expiration just
    computed, returns a job of the list with that hash: the one
    [rememberJobs] bound last, hence the job itself when only one job of the
    list has that hash. *)
Theorem remember_then_get (jobs : list CareerjetJob) (h : jsstring)
  (host : Host) (s : Store) (t : Z) :
  (exists j0, In j0 jobs /\ hash_of j0 = h) ->
  t <= clock s + JOB_CACHE_TTL_MS ->
  let s1 := with_clock t (snd (rememberJobs jobs host s)) in
  exists j,
    getJobFromCache h host s1 = (Returned (Some j), s1)
    /\ In j jobs /\ hash_of j = h
    /\ find (fun j' => JsString.eqb (hash_of j') h) (rev jobs) = Some j
    /\ (forall j1, In j1 jobs ->
          (forall j2, In j2 jobs -> hash_of j2 = hash_of j1 -> j2 = j1) ->
          hash_of j1 = h -> j = j1).
Proof.
  intros [j0 [Hin0 Hh0]] Ht s1.
  destruct (find (fun j' => JsString.eqb (hash_of j') h) (rev jobs)) as [j|] eqn:F.
  - apply find_some in F as F'. destruct F' as [Hin Hh].
    apply in_rev in Hin. apply eqb_eq in Hh.
    exists j. split; [|repeat split; auto].
    + rewrite getJobFromCache_run. subst s1. rewrite rememberJobs_run. simpl.
      rewrite map_get_remember_into, F. simpl.
      destruct (clock s + JOB_CACHE_TTL_MS <? t) eqn:E; [|reflexivity].
      apply Z.ltb_lt in E. lia.
    + intros j1 Hin1 Huniq Hh1. apply Huniq; [assumption|congruence].
  - exfalso. apply in_rev in Hin0.
    pose proof (find_none _ _ F j0 Hin0) as X. simpl in X.
    apply eqb_neq in X. contradiction.
Qed.

Lemma filter_filter {A} (p q : A -> bool) (l : list A) :
  filter p (filter q l) = filter (fun x => q x && p x) l.
Proof.
  induction l as [|x l IH]; simpl; [reflexivity|].
  destruct (q x); simpl; [destruct (p x)|]; congruence.
Qed.

(** The loop of [getCachedJobsSnapshot], in closed form. *)
Lemma snapshot_loop_spec (now : Z) (entries : JsMap CacheEntry)
  (result : list CareerjetJob) (cache : JsMap CacheEntry) :
  snapshot_loop now entries result cache
  = (result ++ map (fun kv => job (snd kv)) (filter (live now) entries),
     filter (fun kv =>
               negb (existsb (fun x => JsString.eqb (fst kv) (fst x)
                                       && negb (live now x)) entries))
            cache).
Proof.
  revert result cache. induction entries as [|[k e] entries IH]; intros result cache.
  - simpl. rewrite app_nil_r. f_equal.
    induction cache as [|kv cache IHc]; simpl; congruence.
  - assert (L : live now (k, e) = (expiresAt e >=? now)) by reflexivity.
    cbn [snapshot_loop filter existsb fst snd]. rewrite L.
    destruct (expiresAt e >=? now) eqn:E.
    + rewrite IH. cbn [map snd]. rewrite <- app_assoc. simpl app. f_equal.
      apply filter_ext. intros kv. now rewrite andb_false_r.
    + rewrite IH. f_equal. unfold map_delete. rewrite filter_filter.
      apply filter_ext. intros kv. rewrite andb_true_r.
      now destruct (JsString.eqb (fst kv) k).
Qed.

Lemma snapshot_keeps_live (now : Z) (m : JsMap CacheEntry) :
  unique_keys m ->
  filter (fun kv =>
            negb (existsb (fun x => JsString.eqb (fst kv) (fst x)
                                    && negb (live now x)) m)) m
  = filter (live now) m.
Proof.
  intros U. apply filter_ext_in. intros [k e] Hin.
  destruct (live now (k, e)) eqn:L.
  - apply negb_true_iff. destruct (existsb _ m) eqn:X; [|reflexivity].
    apply existsb_exists in X as [[k' e'] [Hin' X]]. simpl in X.
    apply andb_true_iff in X as [X1 X2]. apply eqb_eq in X1. subst k'.
    rewrite (unique_keys_functional _ _ _ U Hin Hin') in L.
    rewrite L in X2. discriminate.
  - apply negb_false_iff, existsb_exists. exists (k, e). split; [assumption|].
    simpl. now rewrite eqb_refl, L.
Qed.

Lemma getCachedJobsSnapshot_incl (host : Host) (s : Store) :
  incl (jobCache (snd (getCachedJobsSnapshot host s))) (jobCache s).
Proof.
  unfold getCachedJobsSnapshot, bind, Date_now, get_store, put_store, ret.
  rewrite snapshot_loop_spec. simpl.
  intros kv Hin. now apply filter_In in Hin.
Qed.

Lemma getCachedJobsSnapshot_run (host : Host) (s : Store) :
  unique_keys (jobCache s) ->
  getCachedJobsSnapshot host s
  = (Returned (map (fun kv => job (snd kv)) (filter (live (clock s)) (jobCache s))),
     with_jobCache (filter (live (clock s)) (jobCache s)) s).
Proof.
  intros U.
  unfold getCachedJobsSnapshot, bind, Date_now, get_store, put_store, ret.
  rewrite snapshot_loop_spec, (snapshot_keeps_live _ U). reflexivity.
Qed.

(** C4: an entry whose expiration the clock has passed is not found by
    [getJobFromCache], which deletes it, and no job of a later snapshot
    comes from it; a snapshot returns the jobs of exactly the entries that
    have not expired and leaves exactly those in the cache. *)
Theorem expired_entries_are_evicted (host : Host) (s : Store)
  (h : jsstring) (e : CacheEntry) :
  unique_keys (jobCache s) ->
  map_get h (jobCache s) = Some e ->
  expiresAt e < clock s ->
  let s1 := with_jobCache (map_delete h (jobCache s)) s in
  getJobFromCache h host s = (Returned None, s1)
  /\ map_get h (jobCache s1) = None
  /\ (forall t : Z,
        let s2 := with_clock t s1 in
        let kept := filter (live t) (jobCache s2) in
        getCachedJobsSnapshot host s2
        = (Returned (map (fun kv => job (snd kv)) kept), with_jobCache kept s2)
        /\ (forall k e', In (k, e') kept ->
              k <> h /\ t <= expiresAt e' /\ In (k, e') (jobCache s))
        /\ (forall e', ~ In (h, e') kept)
        /\ (well_keyed (jobCache s) ->
            forall j, In j (map (fun kv => job (snd kv)) kept) -> hash_of j <> h))
  /\ (forall (s' : Store),
        unique_keys (jobCache s') ->
        let kept := filter (live (clock s')) (jobCache s') in
        getCachedJobsSnapshot host s'
        = (Returned (map (fun kv => job (snd kv)) kept), with_jobCache kept s')
        /\ (forall k e', In (k, e') (jobCache s') -> expiresAt e' < clock s' ->
              ~ In (k, e') kept /\ map_get k kept = None)
        /\ (forall k e', In (k, e') kept -> clock s' <= expiresAt e')).
Proof.
  intros U G X s1.
  assert (Hkept : forall t k e', In (k, e') (filter (live t) (jobCache (with_clock t s1))) ->
            k <> h /\ t <= expiresAt e' /\ In (k, e') (jobCache s)).
  { intros t k e' Hin. apply filter_In in Hin as [Hin L]. simpl in Hin.
    apply In_map_delete in Hin as [Hin N]. unfold live in L. simpl in L.
    apply Z.geb_le in L. auto. }
  split; [|split; [|split]].
  - rewrite getJobFromCache_run, G.
    apply Z.ltb_lt in X. now rewrite X.
  - apply map_get_delete_same.
  - intros t s2 kept. split; [|split; [|split]].
    + apply getCachedJobsSnapshot_run. simpl. now apply unique_keys_filter.
    + apply Hkept.
    + intros e' Hin. apply Hkept in Hin as [N _]. now apply N.
    + intros WK j Hin. apply in_map_iff in Hin as [[k e'] [<- Hin]].
      apply Hkept in Hin as [N [_ Hin]]. cbn [snd].
      now rewrite (WK _ _ Hin).
  - intros s' U' kept. split; [now apply getCachedJobsSnapshot_run|]. split.
    + intros k e' Hin X'.
      assert (Hno : forall e'', ~ In (k, e'') kept).
      { intros e'' Hin'. apply filter_In in Hin' as [Hin' L].
        rewrite (unique_keys_functional _ _ _ U' Hin' Hin) in L.
        unfold live in L. simpl in L. apply Z.geb_le in L. lia. }
      split; [apply Hno|].
      destruct (map_get k kept) as [e''|] eqn:G'; [|reflexivity].
      apply map_get_In in G'. now apply Hno in G'.
    + intros k e' Hin. apply filter_In in Hin as [_ L].
      unfold live in L. simpl in L. now apply Z.geb_le in L.
Qed.

(** ** The cache invariant *)

Lemma well_keyed_remember_into (e : Z) (jobs : list CareerjetJob)
  (c : JsMap CacheEntry) :
  well_keyed c -> well_keyed (remember_into e jobs c).
Proof.
  revert c. induction jobs as [|j jobs IH]; intros c WK; [exact WK|].
  simpl. apply IH. intros k e' Hin.
  apply In_map_set in Hin as [[-> ->]|Hin]; [reflexivity|now apply WK].
Qed.

Lemma unique_keys_remember_into (e : Z) (jobs : list CareerjetJob)
  (c : JsMap CacheEntry) :
  unique_keys c -> unique_keys (remember_into e jobs c).
Proof.
  revert c. induction jobs as [|j jobs IH]; intros c U; [exact U|].
  simpl. apply IH. now apply unique_keys_set.
Qed.

Lemma well_keyed_incl (c c' : JsMap CacheEntry) :
  incl c' c -> well_keyed c -> well_keyed c'.
Proof. intros I WK k e Hin. apply WK, I, Hin. Qed.

Lemma getJobFromCache_incl (h : jsstring) (host : Host) (s : Store) :
  incl (jobCache (snd (getJobFromCache h host s))) (jobCache s).
Proof.
  rewrite getJobFromCache_run.
  destruct (map_get h (jobCache s)) as [c|]; [|apply incl_refl].
  destruct (expiresAt c <? clock s); [|apply incl_refl].
  simpl. intros kv Hin. now apply filter_In in Hin.
Qed.

Lemma reachable_unique_keys (host : Host) (s : Store) :
  reachable host s -> unique_keys (jobCache s).
Proof.
  induction 1 as [s E|s op t R IH].
  - rewrite E. constructor.
  - destruct op as [jobs|h|]; simpl.
    + now apply unique_keys_remember_into.
    + rewrite getJobFromCache_run. simpl.
      destruct (map_get h (jobCache s)) as [c|]; [|exact IH].
      destruct (expiresAt c <? t); [|exact IH].
      simpl. now apply unique_keys_filter.
    + rewrite getCachedJobsSnapshot_run by exact IH. simpl.
      now apply unique_keys_filter.
Qed.

(** C9: in every store reached from the freshly loaded module by
    [rememberJobs], [getJobFromCache] and [getCachedJobsSnapshot], at any
    clock readings, each cache entry sits under the hash extracted from its
    own job's slug; [rememberJobs] binds each job under that hash, and the
    two read paths leave only entries that were already there. *)
Theorem cache_keys_are_slug_hashes (host : Host) :
  (forall s, reachable host s -> well_keyed (jobCache s))
  /\ (forall jobs s j, In j jobs ->
        exists e, map_get (hash_of j) (jobCache (snd (rememberJobs jobs host s))) = Some e
                  /\ hash_of (job e) = hash_of j)
  /\ (forall h s, incl (jobCache (snd (getJobFromCache h host s))) (jobCache s))
  /\ (forall s, incl (jobCache (snd (getCachedJobsSnapshot host s))) (jobCache s)).
Proof.
  split; [|split; [|split]].
  - induction 1 as [s E|s op t R IH].
    + rewrite E. intros k e [].
    + destruct op as [jobs|h|]; simpl.
      * now apply well_keyed_remember_into.
      * eapply well_keyed_incl; [apply getJobFromCache_incl|exact IH].
      * eapply well_keyed_incl;
          [apply (getCachedJobsSnapshot_incl host (with_clock t s))|exact IH].
  - intros jobs s j Hin. rewrite rememberJobs_run. simpl.
    rewrite map_get_remember_into.
    destruct (find _ (rev jobs)) as [j'|] eqn:F.
    + eexists. split; [reflexivity|]. simpl.
      apply find_some in F as [_ F]. now apply eqb_eq in F.
    + exfalso. apply in_rev in Hin.
      pose proof (find_none _ _ F j Hin) as X. simpl in X.
      now rewrite eqb_refl in X.
  - intros h s. apply getJobFromCache_incl.
  - intros s. apply (getCachedJobsSnapshot_incl host s).
Qed.

(** C10: the normalized record always has an [apply_url], equal to its
    [url], which is the raw url or the empty string; nothing else of the raw
    record reaches it. *)
Theorem normalizeJob_apply_url (raw : CareerjetRawJob) :
  apply_url (normalizeJob raw) = Some (url (normalizeJob raw))
  /\ url (normalizeJob raw) = match raw_url raw with Some u => u | None => [] end
  /\ apply_url (normalizeJob raw) <> None
  /\ (forall raw' : CareerjetRawJob,
        raw_url raw' = raw_url raw ->
        apply_url (normalizeJob raw') = apply_url (normalizeJob raw)).
Proof.
  split; [reflexivity|]. split; [reflexivity|]. split; [discriminate|].
  intros raw' E. simpl. now rewrite E.
Qed.

End JobCacheFacts.

(** ** The search client *)

Section SearchFacts.

Context {engine : JsEngine}.

Ltac run_js :=
  unfold bind, ret, throw, ask, get_store, put_store, Date_now, try_catch,
    console_error.

Lemma fetch_and_parse_no_key (q : jsstring) (host : Host) (s : Store) :
  truthy (CAREERJET_API_KEY (env host)) = None ->
  fetch_and_parse q host s = (Threw (ErrorObject missing_key_message), s).
Proof.
  intros K. unfold fetch_and_parse, buildAuthHeader, ensureApiKey. run_js.
  now rewrite K.
Qed.

Lemma fetch_and_parse_effects (q : jsstring) (host : Host) (s : Store) :
  same_clock s (snd (fetch_and_parse q host s))
  /\ at_most_one_request s (snd (fetch_and_parse q host s))
  /\ console (snd (fetch_and_parse q host s)) = console s.
Proof.
  unfold fetch_and_parse, buildAuthHeader, ensureApiKey, getReferer, fetch,
    rememberJobs, same_clock, at_most_one_request. run_js.
  destruct (truthy (CAREERJET_API_KEY (env host))); simpl; [|auto].
  destruct (remote host _) as [e|resp]; simpl; [eauto|].
  destruct (negb _); simpl; [eauto|].
  destruct (json resp) as [e|data]; simpl; [eauto|].
  destruct (jobs data); simpl; eauto.
Qed.

Lemma fetch_and_parse_http_error (q : jsstring) (host : Host) (s : Store)
  (key : jsstring) (resp : HttpResponse) :
  truthy (CAREERJET_API_KEY (env host)) = Some key ->
  (forall r, remote host r = Responded resp) ->
  (200 <=? status resp) && (status resp <=? 299) = false ->
  exists m s1,
    fetch_and_parse q host s = (Threw (ErrorObject m), s1)
    /\ m = js "Careerjet API error (" ++ String_of_Z (status resp) ++ js "): "
           ++ or_default (Some (text resp)) (statusText resp)
    /\ m <> [].
Proof.
  intros K R X. unfold fetch_and_parse, buildAuthHeader, ensureApiKey,
    getReferer, fetch. run_js. rewrite K, R, X. simpl.
  eexists. eexists. split; [reflexivity|]. split; [reflexivity|discriminate].
Qed.

Lemma cachedSearch_run (q : jsstring) (host : Host) (s : Store) :
  cachedSearch q host s
  = match served CACHE_TTL_SECONDS q s with
    | Some r => (Returned r, s)
    | None =>
        match fetch_and_parse q host s with
        | (Returned r, s') =>
            (Returned r, with_dataCache (map_set q (r, clock s') (dataCache s')) s')
        | (Threw e, s') => (Threw e, s')
        end
    end.
Proof.
  unfold cachedSearch, unstable_cache. run_js.
  destruct (served CACHE_TTL_SECONDS q s); [reflexivity|].
  destruct (fetch_and_parse q host s) as [[r|e] s']; reflexivity.
Qed.

Lemma searchJobs_run (criteria : CareerjetSearchCriteria) (host : Host) (s : Store) :
  searchJobs criteria host s
  = match cachedSearch (query_of criteria host) host s with
    | (Returned r, s') => (Returned r, s')
    | (Threw e, s') =>
        (Returned (emptyResponse (Some (failure_message e))),
         if not_production host
         then log_line (js "Careerjet search failed:") e s' else s')
    end.
Proof.
  unfold searchJobs, getRequestMetadata, query_of. run_js.
  destruct (cachedSearch _ host s) as [[r|e] s']; [reflexivity|].
  destruct (not_production host); reflexivity.
Qed.

(** [searchJobs] never throws. *)
Lemma searchJobs_returns (criteria : CareerjetSearchCriteria) (host : Host) (s : Store) :
  exists r s', searchJobs criteria host s = (Returned r, s').
Proof.
  rewrite searchJobs_run.
  destruct (cachedSearch _ host s) as [[r|e] s']; eauto.
Qed.

Lemma searchJobs_effects (criteria : CareerjetSearchCriteria) (host : Host) (s : Store) :
  same_clock s (snd (searchJobs criteria host s))
  /\ at_most_one_request s (snd (searchJobs criteria host s)).
Proof.
  rewrite searchJobs_run, cachedSearch_run.
  destruct (served _ _ s); [split; [reflexivity|now left]|].
  destruct (fetch_and_parse_effects (query_of criteria host) host s) as [C [S _]].
  destruct (fetch_and_parse _ host s) as [[r|e] s']; simpl in *; [auto|].
  destruct (not_production host); auto.
Qed.

(** The catch of [searchJobs]: when no stored response is served and the
    fetch-and-parse step throws, [searchJobs] returns the response
    [emptyResponse] builds: type ERROR, no jobs, 0 hits, 1 page, and as
    message the message of the thrown [Error], or the fixed text when what
    was thrown is not an [Error]; the message is empty only for an [Error]
    with an empty message. *)
Lemma searchJobs_catches (criteria : CareerjetSearchCriteria) (host : Host)
  (s s1 : Store) (e : Thrown) :
  served CACHE_TTL_SECONDS (query_of criteria host) s = None ->
  fetch_and_parse (query_of criteria host) host s = (Threw e, s1) ->
  exists resp s2,
    searchJobs criteria host s = (Returned resp, s2)
    /\ type resp = js "ERROR"
    /\ jobs resp = Some []
    /\ hits resp = Some 0
    /\ pages resp = Some 1
    /\ message resp = Some (failure_message e)
    /\ (forall m, e = ErrorObject m -> message resp = Some m)
    /\ (forall v, e = OtherValue v ->
          message resp = Some (js "Careerjet API unavailable"))
    /\ (e <> ErrorObject [] -> failure_message e <> []).
Proof.
  intros Miss T. rewrite searchJobs_run, cachedSearch_run, Miss, T.
  eexists. eexists. split; [reflexivity|]. simpl.
  repeat split.
  - now intros m ->.
  - now intros v ->.
  - intros N. destruct e as [[|c m]|v]; simpl; [congruence|discriminate..].
Qed.

(** C2, as the code has it: with the credential absent (or empty),
    [ensureApiKey] throws the missing-credential error, and it does so
    before any request is sent; but [searchJobs] catches it like any other
    error of the step and returns the error-tagged response carrying its
    message.  Where a stored response is served the credential is not even
    read. *)
Theorem missing_key_is_caught (criteria : CareerjetSearchCriteria) (host : Host)
  (s : Store) :
  truthy (CAREERJET_API_KEY (env host)) = None ->
  ensureApiKey host s = (Threw (ErrorObject missing_key_message), s)
  /\ fetch_and_parse (query_of criteria host) host s
     = (Threw (ErrorObject missing_key_message), s)
  /\ (served CACHE_TTL_SECONDS (query_of criteria host) s = None ->
      exists s2,
        searchJobs criteria host s
        = (Returned (emptyResponse (Some missing_key_message)), s2)
        /\ sent s2 = sent s
        /\ jobCache s2 = jobCache s)
  /\ (forall r, served CACHE_TTL_SECONDS (query_of criteria host) s = Some r ->
        searchJobs criteria host s = (Returned r, s)).
Proof.
  intros K. split; [|split; [|split]].
  - unfold ensureApiKey. run_js. now rewrite K.
  - now apply fetch_and_parse_no_key.
  - intros Miss. rewrite searchJobs_run, cachedSearch_run, Miss.
    rewrite (fetch_and_parse_no_key _ _ _ K). eexists. split; [reflexivity|].
    destruct (not_production host); split; reflexivity.
  - intros r Hit. now rewrite searchJobs_run, cachedSearch_run, Hit.
Qed.

(** ** The slug resolver *)

(** C7: when the cache has no live entry for the hash of the slug and the
    search [findJobBySlug] falls back to returns no job whose slug carries
    that hash, the result is [undefined]; the store is the one that single
    search leaves, and at most one request went out. *)
Theorem findJobBySlug_not_found (slug_ : jsstring)
  (fallbackCriteria : CareerjetSearchCriteria) (host : Host) (s : Store) :
  let hash := extractHashFromSlug slug_ in
  let s1 := snd (getJobFromCache hash host s) in
  let search := searchJobs (resolver_criteria slug_ fallbackCriteria) host s1 in
  (forall e, map_get hash (jobCache s) = Some e -> expiresAt e < clock s) ->
  (forall r items j, fst search = Returned r -> jobs r = Some items ->
                     In j items -> hash_of j <> hash) ->
  findJobBySlug slug_ fallbackCriteria host s = (Returned None, snd search)
  /\ at_most_one_request s (snd search).
Proof.
  intros hash s1 search NoLive NoMatch.
  assert (G : getJobFromCache hash host s = (Returned None, s1)
              /\ sent s1 = sent s).
  { subst s1. rewrite getJobFromCache_run.
    destruct (map_get hash (jobCache s)) as [c|] eqn:E; [|now split].
    specialize (NoLive c eq_refl). apply Z.ltb_lt in NoLive.
    rewrite NoLive. now split. }
  destruct G as [G Sent]. split.
  - unfold findJobBySlug. fold hash. unfold bind at 1. rewrite G.
    unfold bind, ret. fold search.
    destruct (searchJobs_returns (resolver_criteria slug_ fallbackCriteria) host s1)
      as [r [s2 R]].
    subst search. rewrite R in *. simpl in *. f_equal. f_equal.
    destruct (jobs r) as [items|] eqn:J; [|reflexivity].
    destruct (find _ items) as [j|] eqn:F; [|reflexivity].
    apply find_some in F as [Hin F]. apply eqb_eq in F.
    exfalso. exact (NoMatch r items j eq_refl J Hin F).
  - destruct (searchJobs_effects (resolver_criteria slug_ fallbackCriteria) host s1)
      as [_ S].
    unfold at_most_one_request in *. fold search in S. now rewrite <- Sent.
Qed.

End SearchFacts.

(** ** The sitemap *)

Section SitemapFacts.

Context {engine : JsEngine}.

Lemma sitemap_jobs_run (host : Host) (s : Store) :
  unique_keys (jobCache s) ->
  let kept := filter (live (clock s)) (jobCache s) in
  let s1 := with_jobCache kept s in
  Sitemap.sitemap_jobs host s
  = match map (fun kv => job (snd kv)) kept with
    | [] =>
        match searchJobs Sitemap.sitemap_criteria host s1 with
        | (Returned r, s') => (Returned (nullish (jobs r) []), s')
        | (Threw e, s') =>
            (Returned [], log_line (js "Failed to fetch jobs for sitemap:") e s')
        end
    | cached => (Returned cached, s1)
    end.
Proof.
  intros U kept s1. unfold Sitemap.sitemap_jobs. unfold bind at 1.
  rewrite (getCachedJobsSnapshot_run host s U). fold kept. fold s1.
  destruct (map _ kept) as [|j l]; [|reflexivity].
  unfold try_catch, bind, ret, console_error.
  destruct (searchJobs Sitemap.sitemap_criteria host s1) as [[r|e] s']; reflexivity.
Qed.

(** C8, as the code has it: the sitemap is the home page entry followed by
    exactly one entry per listed job, where the listed jobs are the
    non-expired cached jobs when there are any, and otherwise the jobs of a
    default search of page size 20; each job entry carries the job's detail
    URL, the parsed posting date or else the current time, daily change
    frequency and priority 0.6. *)
Theorem sitemap_lists_cached_or_searched (host : Host) (s : Store) :
  unique_keys (jobCache s) ->
  let origin := Sitemap.strip_trailing_slash
                  (nullish (NEXT_PUBLIC_SITE_URL (env host))
                           (js "https://jobhub.example.com")) in
  let now := clock s in
  let kept := filter (live now) (jobCache s) in
  let cached := map (fun kv => job (snd kv)) kept in
  let s1 := with_jobCache kept s in
  exists listed s',
    Sitemap.sitemap host s
    = (Returned (Sitemap.homeEntry origin now
                 :: map (Sitemap.jobEntry origin now) listed), s')
    /\ (cached <> [] -> listed = cached /\ s' = s1)
    /\ (cached = [] ->
        exists r, searchJobs Sitemap.sitemap_criteria host s1 = (Returned r, s')
                  /\ listed = nullish (jobs r) [])
    /\ (forall j,
          Sitemap.url (Sitemap.jobEntry origin now j)
          = origin ++ js "/jobs/" ++ slug j
          /\ Sitemap.lastModified (Sitemap.jobEntry origin now j)
             = match Date_parse (date j) with Some t => t | None => now end
          /\ Sitemap.changeFrequency (Sitemap.jobEntry origin now j) = Sitemap.daily
          /\ Sitemap.priority (Sitemap.jobEntry origin now j) = 6 # 10)
    /\ Sitemap.homeEntry origin now
       = {| Sitemap.url := origin ++ js "/";
            Sitemap.lastModified := now;
            Sitemap.changeFrequency := Sitemap.hourly;
            Sitemap.priority := 1 |}.
Proof.
  intros U origin now kept cached s1.
  unfold Sitemap.sitemap, Sitemap.default_origin.
  unfold bind at 1 2, ask, ret. fold origin. unfold bind at 1.
  rewrite (sitemap_jobs_run host s U). fold now. fold kept. fold cached. fold s1.
  destruct cached as [|j l] eqn:C.
  - destruct (searchJobs_returns Sitemap.sitemap_criteria host s1) as [r [s' R]].
    destruct (searchJobs_effects Sitemap.sitemap_criteria host s1) as [Ck _].
    rewrite R in *. simpl in Ck. unfold same_clock in Ck.
    exists (nullish (jobs r) []), s'. unfold bind, Date_now, ret.
    replace (clock s') with now by (subst now s1; simpl in Ck; congruence).
    split; [reflexivity|]. split; [congruence|].
    split; [intros _; eauto|]. split; [|reflexivity].
    intros j. repeat split.
  - exists (j :: l), s1. unfold bind, Date_now, ret.
    split; [reflexivity|]. split; [auto|]. split; [discriminate|].
    split; [|reflexivity]. intros j'. repeat split.
Qed.

End SitemapFacts.

(** ** Concrete runs *)

(** The guard of the catch on two values no throw site of the step
    produces: a thrown value that is not an [Error] gets the fixed text, and
    an [Error] with an empty message an empty message. *)
Lemma searchJobs_message_can_differ :
  let boom := OtherValue (js "boom") in
  let host := demo_host (Some (js "secret")) (Rejected boom) in
  let silent := demo_host (Some (js "secret")) (Rejected (ErrorObject [])) in
  fst (@fetch_and_parse ascii_engine (query_of no_criteria host) host (fresh_store 0))
  = Threw boom
  /\ fst (@searchJobs ascii_engine no_criteria host (fresh_store 0))
     = Returned (emptyResponse (Some (js "Careerjet API unavailable")))
  /\ fst (@fetch_and_parse ascii_engine (query_of no_criteria silent) silent (fresh_store 0))
     = Threw (ErrorObject [])
  /\ fst (@searchJobs ascii_engine no_criteria silent (fresh_store 0))
     = Returned (emptyResponse (Some [])).
Proof. vm_compute. repeat split. Qed.

(** A remote HTTP 500 is reported with a non-empty message. *)
Lemma searchJobs_catches_witness :
  exists resp s2,
    @searchJobs ascii_engine no_criteria
      (demo_host (Some (js "secret")) (Responded http_500)) (fresh_store 0)
    = (Returned resp, s2)
    /\ type resp = js "ERROR"
    /\ message resp = Some (js "Careerjet API error (500): Internal Server Error").
Proof.
  destruct (@searchJobs_catches ascii_engine no_criteria
              (demo_host (Some (js "secret")) (Responded http_500))
              (fresh_store 0)
              (snd (@fetch_and_parse ascii_engine
                      (query_of no_criteria
                         (demo_host (Some (js "secret")) (Responded http_500)))
                      (demo_host (Some (js "secret")) (Responded http_500))
                      (fresh_store 0)))
              (ErrorObject (js "Careerjet API error (500): Internal Server Error")))
    as [resp [s2 [R [T [_ [_ [_ [M _]]]]]]]].
  - reflexivity.
  - vm_compute. reflexivity.
  - exists resp, s2. split; [exact R|]. split; [exact T|exact M].
Defined.

(** C2 as stated fails: without a credential [searchJobs] returns an
    error-tagged response; nothing is thrown to the caller. *)
Lemma searchJobs_missing_key_returns :
  let host := demo_host None (Responded http_500) in
  @ensureApiKey host (fresh_store 0)
  = (Threw (ErrorObject missing_key_message), fresh_store 0)
  /\ @searchJobs ascii_engine no_criteria host (fresh_store 0)
     = (Returned (emptyResponse (Some missing_key_message)), fresh_store 0)
  /\ fst (@searchJobs ascii_engine no_criteria host (fresh_store 0))
     <> Threw (ErrorObject missing_key_message).
Proof.
  vm_compute. split; [reflexivity|]. split; [reflexivity|discriminate].
Qed.

Lemma missing_key_is_caught_witness :
  truthy (CAREERJET_API_KEY (env (demo_host None (Responded http_500)))) = None
  /\ exists s2,
       @searchJobs ascii_engine Sitemap.sitemap_criteria
         (demo_host None (Responded http_500)) (fresh_store 0)
       = (Returned (emptyResponse (Some missing_key_message)), s2)
       /\ sent s2 = [].
Proof.
  split; [reflexivity|].
  destruct (@missing_key_is_caught ascii_engine Sitemap.sitemap_criteria
              (demo_host None (Responded http_500)) (fresh_store 0) eq_refl)
    as [_ [_ [Caught _]]].
  destruct (Caught eq_refl) as [s2 [R [S _]]].
  exists s2. split; [exact R|exact S].
Defined.

(** C8 as stated fails: with nothing cached the sitemap still lists jobs,
    those of a fresh search, and it lists two where the cache then holds
    one. *)
Lemma sitemap_lists_uncached_jobs :
  fst (@getCachedJobsSnapshot twin_host (fresh_store 1000)) = Returned []
  /\ exists entries s',
       @Sitemap.sitemap ascii_engine twin_host (fresh_store 1000)
       = (Returned entries, s')
       /\ List.length entries = 3%nat
       /\ List.length (jobCache s') = 1%nat.
Proof.
  split; [reflexivity|]. eexists. eexists.
  split; [vm_compute; reflexivity|]. split; reflexivity.
Qed.

Lemma sitemap_lists_cached_or_searched_witness :
  unique_keys (jobCache (fresh_store 1000))
  /\ exists listed s',
       @Sitemap.sitemap ascii_engine twin_host (fresh_store 1000)
       = (Returned (Sitemap.homeEntry (js "https://jobs.example.org") 1000
                    :: map (@Sitemap.jobEntry ascii_engine
                              (js "https://jobs.example.org") 1000) listed), s').
Proof.
  assert (U : unique_keys (jobCache (fresh_store 1000))) by constructor.
  split; [exact U|].
  destruct (@sitemap_lists_cached_or_searched ascii_engine twin_host
              (fresh_store 1000) U) as [listed [s' [R _]]].
  exists listed, s'. exact R.
Defined.

Lemma remember_then_get_witness :
  let host := demo_host None (Rejected (OtherValue [])) in
  let s1 := with_clock 5 (snd (@rememberJobs [one_job] host (fresh_store 0))) in
  exists j,
    getJobFromCache (hash_of one_job) host s1 = (Returned (Some j), s1)
    /\ j = one_job.
Proof.
  intros host s1.
  destruct (@remember_then_get [one_job] (hash_of one_job) host (fresh_store 0) 5)
    as [j [G [_ [_ [_ Uniq]]]]].
  - exists one_job. split; [left|]; reflexivity.
  - vm_compute. discriminate.
  - exists j. split; [exact G|].
    apply Uniq; [left; reflexivity| |reflexivity].
    intros j2 [<-|[]] _. reflexivity.
Defined.

Lemma expired_entries_are_evicted_witness :
  let host := demo_host None (Rejected (OtherValue [])) in
  let s := with_clock 1000000
             (snd (@rememberJobs [one_job] host (fresh_store 0))) in
  getJobFromCache (hash_of one_job) host s
  = (Returned None, with_jobCache [] s).
Proof.
  intros host s.
  assert (U : unique_keys (jobCache s)).
  { vm_compute. constructor; [intros []|constructor]. }
  assert (G : map_get (hash_of one_job) (jobCache s)
              = Some {| job := one_job; expiresAt := 900000 |}).
  { vm_compute. reflexivity. }
  assert (X : expiresAt {| job := one_job; expiresAt := 900000 |} < clock s).
  { vm_compute. reflexivity. }
  destruct (@expired_entries_are_evicted host s (hash_of one_job) _ U G X)
    as [R _].
  rewrite R. vm_compute. reflexivity.
Defined.

Lemma findJobBySlug_not_found_witness :
  @findJobBySlug ascii_engine (js "ghost-role-abc123def0") no_criteria
    twin_host (fresh_store 0)
  = (Returned None,
     snd (@searchJobs ascii_engine
            (resolver_criteria (js "ghost-role-abc123def0") no_criteria)
            twin_host (fresh_store 0))).
Proof.
  destruct (@findJobBySlug_not_found ascii_engine (js "ghost-role-abc123def0")
              no_criteria twin_host (fresh_store 0)) as [R _].
  - intros e G. vm_compute in G. discriminate.
  - intros r items j R J Hin. vm_compute in R. injection R as <-.
    vm_compute in J. injection J as <-.
    destruct Hin as [<-|[<-|[]]]; vm_compute; discriminate.
  - exact R.
Defined.

Lemma makeJobSlug_deterministic_and_factored_witness :
  @makeJobSlug ascii_engine (js "Senior Backend Engineer") (js "https://example.com/jobs/123")
  = @makeJobSlug ascii_engine (js "Senior Backend Engineer") (js "https://example.com/jobs/123").
Proof.
  apply (proj1 (@makeJobSlug_deterministic_and_factored ascii_engine));
    reflexivity.
Defined.

Lemma cache_keys_are_slug_hashes_witness :
  let host := demo_host None (Rejected (OtherValue [])) in
  let s := run_op (op_remember [one_job]) host (with_clock 7 (fresh_store 0)) in
  reachable host s /\ well_keyed (jobCache s).
Proof.
  intros host s.
  assert (R : reachable host s).
  { apply reach_step. apply reach_fresh. reflexivity. }
  split; [exact R|].
  exact (proj1 (cache_keys_are_slug_hashes host) s R).
Defined.

(** * Further properties *)

Arguments Sha256.sha256_hex s : simpl never.
Arguments url_hash url : simpl never.

(** ** Shape of slugs *)

Lemma forallb_drop_while (q p : char16 -> bool) (s : jsstring) :
  forallb q s = true -> forallb q (drop_while p s) = true.
Proof.
  induction s as [|c r IH]; simpl; [reflexivity|].
  intros E. destruct (p c); [|exact E].
  apply andb_true_iff in E as [_ E]. auto.
Qed.

Lemma forallb_rev {A} (q : A -> bool) (l : list A) :
  forallb q (rev l) = forallb q l.
Proof.
  induction l as [|x l IH]; simpl; [reflexivity|].
  rewrite forallb_app, IH. simpl. rewrite andb_true_r. apply andb_comm.
Qed.

Lemma forallb_drop_while_end (q p : char16 -> bool) (s : jsstring) :
  forallb q s = true -> forallb q (drop_while_end p s) = true.
Proof.
  intros E. unfold drop_while_end. rewrite forallb_rev.
  apply forallb_drop_while. now rewrite forallb_rev.
Qed.

Lemma drop_while_suffix (p : char16 -> bool) (s : jsstring) :
  exists a, s = a ++ drop_while p s.
Proof.
  induction s as [|c r [a IH]]; simpl; [now exists []|].
  destruct (p c); [|now exists []].
  exists (c :: a). simpl. now f_equal.
Qed.

Lemma drop_while_end_prefix (p : char16 -> bool) (s : jsstring) :
  exists b, s = drop_while_end p s ++ b.
Proof.
  unfold drop_while_end. destruct (drop_while_suffix p (rev s)) as [a E].
  exists (rev a). rewrite <- rev_app_distr, <- E. now rewrite rev_involutive.
Qed.

Lemma drop_while_head (p : char16 -> bool) (s : jsstring) (d : char16) :
  p d = false -> p (hd d (drop_while p s)) = false.
Proof.
  intros D. induction s as [|c r IH]; simpl; [exact D|].
  destruct (p c) eqn:E; [exact IH|exact E].
Qed.

Lemma last_rev_hd {A} (l : list A) (d : A) : last (rev l) d = hd d l.
Proof.
  destruct l as [|x l]; [reflexivity|]. simpl. apply last_last.
Qed.

Lemma no_double_hyphen_app_l (a b : jsstring) :
  no_double_hyphen (a ++ b) = true -> no_double_hyphen a = true.
Proof.
  induction a as [|x a IH]; [reflexivity|].
  destruct a as [|y a]; [reflexivity|].
  simpl in *. intros E. apply andb_true_iff in E as [E1 E2].
  rewrite E1. simpl. auto.
Qed.

Lemma no_double_hyphen_app_r (a b : jsstring) :
  no_double_hyphen (a ++ b) = true -> no_double_hyphen b = true.
Proof.
  induction a as [|x a IH]; [auto|].
  intros E. apply IH. destruct (a ++ b) as [|y r] eqn:Eab.
  - reflexivity.
  - simpl app in E. rewrite Eab in E. simpl in E.
    now apply andb_true_iff in E as [_ E].
Qed.

Lemma no_double_hyphen_cons (x : char16) (s : jsstring) :
  no_double_hyphen (x :: s)
  = negb ((x =? hyphen) && (hd 0 s =? hyphen)) && no_double_hyphen s.
Proof.
  destruct s as [|y r]; simpl; [|reflexivity].
  unfold hyphen. now rewrite andb_false_r.
Qed.

(** What the run-collapsing step of [slugify] produces. *)
Lemma collapsed_shape (s : jsstring) (in_run : bool) :
  let cls := fun c => is_space c || (c =? underscore) || (c =? hyphen) in
  forallb (fun c => is_word c || is_space c || (c =? hyphen)) s = true ->
  let out := replace_runs cls [hyphen] in_run s in
  forallb is_slug_char out = true
  /\ no_double_hyphen out = true
  /\ (in_run = true -> hd 0 out <> hyphen).
Proof.
  intros cls. revert in_run.
  induction s as [|c r IH]; intros in_run E.
  - repeat split. intros _. discriminate.
  - cbn [forallb] in E. apply andb_true_iff in E as [Ec Er].
    cbn zeta. cbn [replace_runs]. destruct (cls c) eqn:C.
    + destruct (IH true Er) as [F [N H]]. specialize (H eq_refl).
      destruct in_run; cbn [app].
      * repeat split; auto.
      * split; [cbn [forallb]; now rewrite F|]. split; [|discriminate].
        rewrite no_double_hyphen_cons, N.
        apply Z.eqb_neq in H. rewrite H. now rewrite andb_false_r.
    + destruct (IH false Er) as [F [N _]].
      assert (A : is_alnum c = true /\ c <> hyphen).
      { unfold cls in C. apply orb_false_iff in C as [C Ch].
        apply orb_false_iff in C as [Cs Cu].
        rewrite Cs, Ch, !orb_false_r in Ec.
        unfold is_word in Ec. rewrite Cu, orb_false_r in Ec.
        split; [exact Ec|]. now apply Z.eqb_neq. }
      destruct A as [A Hc]. split; [|split].
      * cbn [forallb]. unfold is_slug_char at 1. now rewrite A, F.
      * rewrite no_double_hyphen_cons, N.
        apply Z.eqb_neq in Hc. now rewrite Hc.
      * intros _. exact Hc.
Qed.

Section SlugShape.

Context {engine : JsEngine}.

Lemma slugify_collapsed (input : jsstring) :
  exists out a b,
    forallb is_slug_char out = true
    /\ no_double_hyphen out = true
    /\ out = a ++ drop_while (fun c => c =? hyphen) out
    /\ drop_while (fun c => c =? hyphen) out = slugify input ++ b.
Proof.
  unfold slugify.
  set (kept := filter _ (normalize_NFKD (toLowerCase input))).
  assert (K : forallb (fun c => is_word c || is_space c || (c =? hyphen))
                (trim kept) = true).
  { unfold trim. apply forallb_drop_while_end, forallb_drop_while.
    unfold kept. apply forallb_forall. intros c Hc.
    now apply filter_In in Hc. }
  destruct (collapsed_shape (trim kept) false K) as [F [N _]].
  set (out := replace_runs _ _ false (trim kept)) in *.
  set (isH := fun c : char16 => c =? hyphen).
  destruct (drop_while_suffix isH out) as [a Ea].
  destruct (drop_while_end_prefix isH (drop_while isH out)) as [b Eb].
  exists out, a, b. auto.
Qed.

Lemma slugify_alphabet (input : jsstring) :
  forallb is_slug_char (slugify input) = true
  /\ no_double_hyphen (slugify input) = true.
Proof.
  destruct (slugify_collapsed input) as [out [a [b [F [N [Ea Eb]]]]]].
  rewrite Ea, Eb in F, N. rewrite !forallb_app in F.
  apply andb_true_iff in F as [_ F]. apply andb_true_iff in F as [F _].
  split; [exact F|].
  apply no_double_hyphen_app_l with (b := b).
  now apply no_double_hyphen_app_r with (a := a).
Qed.

Lemma slugify_ends (input : jsstring) : hyphen_free_ends (slugify input).
Proof.
  destruct (slugify_collapsed input) as [out [a [b [_ [_ [_ Eb]]]]]].
  set (isH := fun c : char16 => c =? hyphen) in *.
  assert (H0 : isH (hd 0 (drop_while isH out)) = false)
    by (now apply drop_while_head).
  split.
  - rewrite Eb in H0. destruct (slugify input) as [|x l]; [discriminate|].
    simpl in *. now apply Z.eqb_neq.
  - unfold slugify, drop_while_end. rewrite last_rev_hd.
    apply Z.eqb_neq. now apply (drop_while_head (fun c => c =? hyphen)).
Qed.

(** X1: whatever the title and the engine's case and normalization tables,
    [slugify] returns only ASCII letters, digits and hyphens, with no
    hyphen first or last and no two hyphens in a row. *)
Theorem slugify_shape (input : jsstring) :
  forallb is_slug_char (slugify input) = true
  /\ no_double_hyphen (slugify input) = true
  /\ hyphen_free_ends (slugify input).
Proof.
  destruct (slugify_alphabet input) as [F N].
  pose proof (slugify_ends input) as E.
  split; [exact F|]. split; [exact N|exact E].
Qed.

Lemma slug_base_shape (title_ : jsstring) :
  slug_base title_ <> []
  /\ forallb is_slug_char (slug_base title_) = true
  /\ no_double_hyphen (slug_base title_) = true
  /\ hyphen_free_ends (slug_base title_).
Proof.
  unfold slug_base. destruct (slugify_alphabet title_) as [F N].
  pose proof (slugify_ends title_) as E.
  destruct (slugify title_) as [|c r].
  - repeat split; discriminate.
  - split; [discriminate|]. auto.
Qed.

Lemma lower_hex_slug_char (s : jsstring) :
  forallb is_lower_hex s = true -> forallb is_slug_char s = true.
Proof.
  rewrite !forallb_forall. intros Hs c Hc. specialize (Hs c Hc).
  unfold is_lower_hex, is_slug_char, is_alnum in *.
  apply orb_true_iff in Hs as [Hs|Hs].
  - rewrite Hs. reflexivity.
  - apply andb_true_iff in Hs as [H1 H2].
    apply Z.leb_le in H1, H2.
    replace (97 <=? c) with true by (symmetry; apply Z.leb_le; lia).
    replace (c <=? 122) with true by (symmetry; apply Z.leb_le; lia).
    simpl. now rewrite orb_true_r.
Qed.

(** X2: every slug [makeJobSlug] builds is URL-safe: only ASCII letters,
    digits and hyphens, never starting with a hyphen, with a non-empty base
    (the placeholder when the title normalizes to nothing), so at least 12
    code units long. *)
Theorem makeJobSlug_url_safe (title_ url_ : jsstring) :
  forallb is_slug_char (makeJobSlug title_ url_) = true
  /\ hd 0 (makeJobSlug title_ url_) <> hyphen
  /\ (12 <= List.length (makeJobSlug title_ url_))%nat
  /\ (slugify title_ = [] ->
      makeJobSlug title_ url_ = js "job-opening-" ++ url_hash url_).
Proof.
  destruct (slug_base_shape title_) as [NE [F [_ [H _]]]].
  rewrite makeJobSlug_factors. split; [|split; [|split]].
  - rewrite !forallb_app, F, (lower_hex_slug_char _ (url_hash_lower url_)).
    reflexivity.
  - destruct (slug_base title_); [contradiction|exact H].
  - rewrite !length_app, url_hash_length. simpl.
    destruct (slug_base title_); [contradiction|simpl; lia].
  - intros E. unfold slug_base. rewrite E. reflexivity.
Qed.

End SlugShape.

(** ** [extractHashFromSlug] on arbitrary input *)

Lemma last_hyphen_split (s : jsstring) :
  hyphen_free s = true
  \/ exists a b, s = a ++ hyphen :: b /\ hyphen_free b = true.
Proof.
  induction s as [|c r IH]; [now left|].
  destruct IH as [F|[a [b [-> F]]]].
  - destruct (c =? hyphen) eqn:E.
    + right. apply Z.eqb_eq in E. subst c. now exists [], r.
    + left. unfold hyphen_free in *. simpl. now rewrite E.
  - right. now exists (c :: a), b.
Qed.

Lemma extractHash_no_hyphen (s : jsstring) :
  hyphen_free s = true -> extractHashFromSlug s = s.
Proof.
  intros F. unfold extractHashFromSlug.
  now rewrite (split_without_sep _ _ F).
Qed.

(** X3: [extractHashFromSlug] does no validation: it returns what follows
    the last hyphen, whatever that is, and the whole string when there is no
    hyphen (the empty string for the empty string).  The result never
    contains a hyphen, and extracting again changes nothing. *)
Theorem extractHash_is_last_segment (slug_ : jsstring) :
  hyphen_free (extractHashFromSlug slug_) = true
  /\ extractHashFromSlug (extractHashFromSlug slug_) = extractHashFromSlug slug_
  /\ (hyphen_free slug_ = true -> extractHashFromSlug slug_ = slug_)
  /\ (forall a b, hyphen_free b = true ->
        extractHashFromSlug (a ++ [hyphen] ++ b) = b)
  /\ (hyphen_free slug_ = false ->
      exists a, slug_ = a ++ [hyphen] ++ extractHashFromSlug slug_).
Proof.
  assert (A : forall a b, hyphen_free b = true ->
                extractHashFromSlug (a ++ [hyphen] ++ b) = b).
  { intros a b F. now apply extractHash_suffix. }
  destruct (last_hyphen_split slug_) as [F|[a [b [-> F]]]].
  - rewrite (extractHash_no_hyphen _ F).
    split; [exact F|]. split; [now apply extractHash_no_hyphen|].
    split; [reflexivity|]. split; [exact A|]. congruence.
  - change (a ++ hyphen :: b) with (a ++ [hyphen] ++ b).
    rewrite (A a b F).
    split; [exact F|]. split; [now apply extractHash_no_hyphen|].
    split; [|split; [exact A|]].
    + intros F'. exfalso. unfold hyphen_free in F'.
      rewrite forallb_app in F'. simpl in F'.
      now rewrite andb_false_r in F'.
    + intros _. now exists a.
Qed.

(** ** Keywords rebuilt from a slug *)

Lemma split_app_sep (sep : char16) (a b : jsstring) :
  split sep (a ++ sep :: b) = split sep a ++ split sep b.
Proof.
  induction a as [|c a IH]; simpl.
  - now rewrite Z.eqb_refl.
  - rewrite IH. destruct (c =? sep); [reflexivity|].
    destruct (split sep a) eqn:E; [now apply split_not_nil in E|reflexivity].
Qed.

Lemma join_split_spaces (s : jsstring) :
  join [space] (split hyphen s) = hyphens_to_spaces s.
Proof.
  induction s as [|c r IH]; [reflexivity|]. simpl.
  destruct (c =? hyphen) eqn:E.
  - destruct (split hyphen r) eqn:S; [now apply split_not_nil in S|].
    rewrite <- IH. reflexivity.
  - destruct (split hyphen r) as [|p ps] eqn:S; [now apply split_not_nil in S|].
    rewrite <- IH. destruct ps; reflexivity.
Qed.

Lemma alnum_not_space (c : char16) : is_alnum c = true -> is_space c = false.
Proof.
  unfold is_alnum, is_space. intros A.
  repeat (apply orb_true_iff in A as [A|A]);
    apply andb_true_iff in A as [A1 A2]; apply Z.leb_le in A1, A2;
    repeat (apply orb_false_iff; split);
    try (apply andb_false_iff; (left; apply Z.leb_gt; lia) || (right; apply Z.leb_gt; lia));
    try (apply Z.eqb_neq; lia).
Qed.

Lemma spaced_base_is_stable (s : jsstring) (in_run : bool) :
  forallb is_slug_char s = true ->
  no_double_hyphen s = true ->
  (in_run = true -> hd 0 s <> hyphen) ->
  replace_runs is_space [space] in_run (hyphens_to_spaces s)
  = hyphens_to_spaces s.
Proof.
  revert in_run. induction s as [|c r IH]; intros in_run F N H; [reflexivity|].
  simpl in F. apply andb_true_iff in F as [Fc Fr].
  rewrite no_double_hyphen_cons in N. apply andb_true_iff in N as [Nc Nr].
  simpl. destruct (c =? hyphen) eqn:E.
  - change (is_space space) with true. cbn iota.
    destruct in_run.
    + exfalso. apply (H eq_refl). simpl. now apply Z.eqb_eq.
    + simpl. f_equal. apply IH; auto. intros _.
      simpl in Nc. apply negb_true_iff in Nc. now apply Z.eqb_neq.
  - unfold is_slug_char in Fc. rewrite E, orb_false_r in Fc.
    rewrite (alnum_not_space _ Fc). f_equal. apply IH; auto. discriminate.
Qed.

Section ResolverKeywords.

Context {engine : JsEngine}.

(** X4: for a slug made by [makeJobSlug], the keywords [findJobBySlug]
    rebuilds when the caller gives none are the slug's title part with its
    hyphens turned into spaces: the hash segment is dropped and nothing else
    is lost or added. *)
Theorem resolver_keywords_of_made_slug (title_ url_ : jsstring)
  (fallbackCriteria : CareerjetSearchCriteria) :
  truthy (keywords fallbackCriteria) = None ->
  keywords (resolver_criteria (makeJobSlug title_ url_) fallbackCriteria)
  = Some (hyphens_to_spaces (slug_base title_)).
Proof.
  intros K. unfold resolver_criteria. rewrite K. cbn [keywords]. f_equal.
  rewrite makeJobSlug_factors. simpl app.
  rewrite split_app_sep.
  rewrite (split_without_sep hyphen (url_hash url_))
    by apply lower_hex_not_hyphen, url_hash_lower.
  rewrite removelast_last, join_split_spaces.
  destruct (slug_base_shape title_) as [_ [F [N _]]].
  apply spaced_base_is_stable; auto. discriminate.
Qed.

End ResolverKeywords.

Lemma resolver_keywords_of_made_slug_witness :
  keywords (resolver_criteria
              (@makeJobSlug ascii_engine (js "Senior Backend Engineer")
                            (js "https://example.com/jobs/123"))
              no_criteria)
  = Some (js "senior backend engineer").
Proof.
  rewrite (@resolver_keywords_of_made_slug ascii_engine
             (js "Senior Backend Engineer") (js "https://example.com/jobs/123")
             no_criteria eq_refl).
  vm_compute. reflexivity.
Defined.

(** ** [plainTextFromHtml] *)

Lemma strip_tags_open (buf x : jsstring) :
  no_gt x = true -> strip_tags (Some buf) x = lt_sign :: rev buf ++ x.
Proof.
  revert buf. induction x as [|c r IH]; intros buf G.
  - simpl. now rewrite app_nil_r.
  - unfold no_gt in G. simpl in G. apply andb_true_iff in G as [Gc Gr].
    apply negb_true_iff in Gc.
    destruct buf as [|b buf]; simpl; rewrite Gc.
    + exact (IH [c] Gr).
    + etransitivity; [exact (IH (c :: b :: buf) Gr)|].
      simpl. now rewrite <- !app_assoc.
Qed.

Lemma strip_tags_stable (s : jsstring) (p : option jsstring) :
  (forall buf, p = Some buf -> no_gt buf = true) ->
  strip_tags None (strip_tags p s) = strip_tags p s.
Proof.
  revert p. induction s as [|c r IH]; intros p G.
  - destruct p as [buf|]; [|reflexivity]. simpl.
    rewrite strip_tags_open; [reflexivity|].
    unfold no_gt. rewrite forallb_rev. now apply G.
  - destruct p as [[|b buf]|]; simpl.
    + destruct (c =? gt_sign) eqn:E.
      * simpl. rewrite IH; [reflexivity|discriminate].
      * apply IH. intros ? [= <-]. unfold no_gt. simpl. now rewrite E.
    + destruct (c =? gt_sign) eqn:E.
      * apply IH. discriminate.
      * apply IH. intros ? [= <-]. specialize (G _ eq_refl).
        unfold no_gt in *. cbn [forallb] in *. rewrite E. exact G.
    + destruct (c =? lt_sign) eqn:E.
      * apply IH. intros ? [= <-]. reflexivity.
      * simpl. rewrite E. f_equal. apply IH. discriminate.
Qed.

Lemma strip_tags_length (s : jsstring) (p : option jsstring) :
  (List.length (strip_tags p s)
   <= List.length s + match p with
                      | None => 0
                      | Some buf => 1 + List.length buf
                      end)%nat.
Proof.
  revert p. induction s as [|c r IH]; intros p.
  - destruct p as [buf|]; simpl; [rewrite length_rev|]; lia.
  - destruct p as [[|b buf]|]; simpl.
    + destruct (c =? gt_sign); [specialize (IH None)|specialize (IH (Some [c]))];
        simpl in *; lia.
    + destruct (c =? gt_sign);
        [specialize (IH None)|specialize (IH (Some (c :: b :: buf)))];
        simpl in *; lia.
    + destruct (c =? lt_sign); [specialize (IH (Some []))|specialize (IH None)];
        simpl in *; lia.
Qed.

Lemma strip_tags_text (a x : jsstring) :
  no_lt a = true -> strip_tags None (a ++ x) = a ++ strip_tags None x.
Proof.
  induction a as [|c a IH]; intros L; [reflexivity|].
  unfold no_lt in L. simpl in L. apply andb_true_iff in L as [Lc La].
  apply negb_true_iff in Lc. simpl. rewrite Lc. f_equal. now apply IH.
Qed.

Lemma strip_tags_close (buf t b : jsstring) :
  no_gt t = true -> buf ++ t <> [] ->
  strip_tags (Some buf) (t ++ gt_sign :: b) = strip_tags None b.
Proof.
  revert buf. induction t as [|c t IH]; intros buf G NE.
  - rewrite app_nil_r in NE. destruct buf; [contradiction|].
    simpl. reflexivity.
  - unfold no_gt in G. simpl in G. apply andb_true_iff in G as [Gc Gt].
    apply negb_true_iff in Gc.
    destruct buf as [|x buf]; simpl; rewrite Gc; apply IH; auto; discriminate.
Qed.

Lemma plainTextFromHtml_length (html : jsstring) :
  (List.length (plainTextFromHtml html) <= List.length html)%nat.
Proof.
  pose proof (strip_tags_length html None) as L. simpl in L.
  unfold plainTextFromHtml. lia.
Qed.

(** X5: stripping tags twice is stripping them once; text without [<] comes
    back as it is; the result is never longer than the input. *)
Theorem plainTextFromHtml_idempotent (html : jsstring) :
  plainTextFromHtml (plainTextFromHtml html) = plainTextFromHtml html
  /\ (no_lt html = true -> plainTextFromHtml html = html)
  /\ (List.length (plainTextFromHtml html) <= List.length html)%nat.
Proof.
  split; [|split]; [| |apply plainTextFromHtml_length].
  - unfold plainTextFromHtml. apply strip_tags_stable. discriminate.
  - intros L. unfold plainTextFromHtml. rewrite <- (app_nil_r html) at 1.
    rewrite strip_tags_text by exact L. simpl. apply app_nil_r.
Qed.

(** X6: a tag, that is a [<], then at least one code unit other than [>],
    then a [>], is removed together with its content, the text before it is
    kept and the text after it is processed in the same way; [<>] is not a
    tag and stays. *)
Theorem plainTextFromHtml_removes_tag (before tag after : jsstring) :
  no_lt before = true ->
  no_gt tag = true ->
  tag <> [] ->
  plainTextFromHtml (before ++ [lt_sign] ++ tag ++ [gt_sign] ++ after)
  = before ++ plainTextFromHtml after
  /\ plainTextFromHtml (before ++ [lt_sign; gt_sign] ++ after)
     = before ++ [lt_sign; gt_sign] ++ plainTextFromHtml after.
Proof.
  intros L G NE. unfold plainTextFromHtml. split.
  - rewrite strip_tags_text by exact L. f_equal. simpl.
    apply strip_tags_close; [exact G|]. now destruct tag.
  - rewrite strip_tags_text by exact L. reflexivity.
Qed.

(** ** More on the job cache *)

Lemma map_get_delete_other {V} (m : JsMap V) (k h : jsstring) :
  k <> h -> map_get k (map_delete h m) = map_get k m.
Proof.
  intros N. induction m as [|[k' v'] m IH]; simpl; [reflexivity|].
  destruct (JsString.eqb k' h) eqn:E; simpl.
  - apply eqb_eq in E. subst k'. apply not_eq_sym in N.
    apply eqb_neq in N. now rewrite N.
  - now rewrite IH.
Qed.

Lemma unique_keys_get {V} (m : JsMap V) (k : jsstring) (v : V) :
  unique_keys m -> In (k, v) m -> map_get k m = Some v.
Proof.
  intros U Hin. destruct (map_get k m) as [v'|] eqn:G.
  - apply map_get_In in G. f_equal.
    eapply unique_keys_functional; eauto.
  - exfalso. eapply map_get_None; eauto.
Qed.

(** X7: [getJobFromCache] returns a job exactly when the cache holds an
    entry under that hash whose expiration is not before the clock, and then
    changes nothing; in every case it returns rather than throws, leaves
    every other key as it was, and touches nothing but the job cache. *)
Theorem getJobFromCache_characterised (h : jsstring) (host : Host) (s : Store) :
  let r := fst (getJobFromCache h host s) in
  let s' := snd (getJobFromCache h host s) in
  (forall j, r = Returned (Some j)
             <-> exists e, map_get h (jobCache s) = Some e /\ job e = j
                           /\ clock s <= expiresAt e)
  /\ (r <> Returned None -> s' = s)
  /\ (exists o, r = Returned o)
  /\ (forall k, k <> h -> map_get k (jobCache s') = map_get k (jobCache s))
  /\ s' = with_jobCache (jobCache s') s.
Proof.
  intros r s'. subst r s'. rewrite getJobFromCache_run.
  destruct (map_get h (jobCache s)) as [c|] eqn:G.
  - destruct (expiresAt c <? clock s) eqn:X; simpl.
    + apply Z.ltb_lt in X. split; [|split; [|split; [|split]]].
      * intros j. split; [discriminate|].
        intros [e [[= <-] [_ Y]]]. lia.
      * congruence.
      * eauto.
      * intros k N. now apply map_get_delete_other.
      * reflexivity.
    + apply Z.ltb_ge in X. split; [|split; [|split; [|split]]].
      * intros j. split.
        -- intros [= <-]. eauto.
        -- intros [e [[= <-] [<- _]]]. reflexivity.
      * reflexivity.
      * eauto.
      * reflexivity.
      * now destruct s.
  - simpl. split; [|split; [|split; [|split]]].
    + intros j. split; [discriminate|]. intros [e [[=] _]].
    + reflexivity.
    + eauto.
    + reflexivity.
    + now destruct s.
Qed.

Lemma filter_idempotent {A} (p : A -> bool) (l : list A) :
  filter p (filter p l) = filter p l.
Proof.
  rewrite filter_filter. apply filter_ext. intros x. now destruct (p x).
Qed.

(** X8: in a cache with distinct keys, a second snapshot at the same clock
    returns the same jobs in the same order and changes nothing more: the
    first one has already removed all there was to remove. *)
Theorem snapshot_twice (host : Host) (s : Store) :
  unique_keys (jobCache s) ->
  let first := getCachedJobsSnapshot host s in
  getCachedJobsSnapshot host (snd first) = (fst first, snd first).
Proof.
  intros U first. subst first.
  rewrite (getCachedJobsSnapshot_run host s U). simpl.
  rewrite getCachedJobsSnapshot_run by (simpl; now apply unique_keys_filter).
  simpl. rewrite filter_idempotent. reflexivity.
Qed.

(** X9: the two read paths agree: in a cache with distinct keys where
    every entry sits under its job's hash, the jobs of a snapshot are exactly
    the jobs [getJobFromCache] returns at the same clock, each under the
    hash of its own slug. *)
Theorem snapshot_agrees_with_get (host : Host) (s : Store) (j : CareerjetJob) :
  unique_keys (jobCache s) ->
  well_keyed (jobCache s) ->
  forall js, fst (getCachedJobsSnapshot host s) = Returned js ->
  (In j js <-> getJobFromCache (hash_of j) host s = (Returned (Some j), s)).
Proof.
  intros U WK js R.
  rewrite (getCachedJobsSnapshot_run host s U) in R. simpl in R.
  injection R as <-. rewrite getJobFromCache_run. split.
  - intros Hin. apply in_map_iff in Hin as [[k e] [<- Hin]].
    apply filter_In in Hin as [Hin L]. simpl.
    rewrite (WK _ _ Hin). erewrite unique_keys_get by eauto.
    unfold live in L. simpl in L. apply Z.geb_le in L.
    destruct (expiresAt e <? clock s) eqn:X; [|reflexivity].
    apply Z.ltb_lt in X. lia.
  - destruct (map_get (hash_of j) (jobCache s)) as [e|] eqn:G; [|discriminate].
    destruct (expiresAt e <? clock s) eqn:X; [discriminate|].
    intros [= <-]. apply Z.ltb_ge in X. apply in_map_iff.
    exists (hash_of (job e), e). split; [reflexivity|].
    apply filter_In. split; [now apply map_get_In|].
    unfold live. simpl. apply Z.geb_le. lia.
Qed.

Lemma In_remember_into (e : Z) (jobs : list CareerjetJob)
  (c : JsMap CacheEntry) (k : jsstring) (x : CacheEntry) :
  In (k, x) (remember_into e jobs c) ->
  In (k, x) c
  \/ (In (job x) jobs /\ expiresAt x = e /\ k = hash_of (job x)).
Proof.
  revert c. induction jobs as [|j jobs IH]; intros c Hin; [now left|].
  simpl in Hin. apply IH in Hin as [Hin|[Hj [He Hk]]].
  - apply In_map_set in Hin as [[-> ->]|Hin]; [|now left].
    right. simpl. auto.
  - right. simpl. auto.
Qed.

Lemma keys_remember_into (e : Z) (jobs : list CareerjetJob)
  (c : JsMap CacheEntry) (k : jsstring) :
  In k (map fst c) -> In k (map fst (remember_into e jobs c)).
Proof.
  revert c. induction jobs as [|j jobs IH]; intros c Hin; [exact Hin|].
  simpl. apply IH. apply keys_map_set. now right.
Qed.

(** X10: [rememberJobs] only adds and rebinds: a key that is the hash of no
    job of the list keeps its entry, no key is ever removed, and every entry
    found afterwards is either an old one or binds a job of the list under
    its own hash with the expiration clock + 15 minutes; nothing but the job
    cache changes. *)
Theorem rememberJobs_frame (jobs : list CareerjetJob) (host : Host) (s : Store) :
  let s' := snd (rememberJobs jobs host s) in
  fst (rememberJobs jobs host s) = Returned tt
  /\ (forall k, (forall j, In j jobs -> hash_of j <> k) ->
        map_get k (jobCache s') = map_get k (jobCache s))
  /\ (forall k, In k (map fst (jobCache s)) -> In k (map fst (jobCache s')))
  /\ (forall k x, In (k, x) (jobCache s') ->
        In (k, x) (jobCache s)
        \/ (In (job x) jobs /\ expiresAt x = clock s + 900000
            /\ k = hash_of (job x)))
  /\ (unique_keys (jobCache s) -> unique_keys (jobCache s'))
  /\ s' = with_jobCache (jobCache s') s.
Proof.
  intros s'. subst s'. rewrite rememberJobs_run. simpl.
  split; [reflexivity|]. split; [|split; [|split; [|split]]].
  - intros k N. rewrite map_get_remember_into.
    destruct (find _ (rev jobs)) as [j|] eqn:F; [|reflexivity].
    apply find_some in F as [Hin F]. apply in_rev in Hin. apply eqb_eq in F.
    now apply N in Hin.
  - intros k. apply keys_remember_into.
  - intros k x. apply In_remember_into.
  - apply unique_keys_remember_into.
  - reflexivity.
Qed.

Section NormalizedKeys.

Context {engine : JsEngine}.

(** X11: the cache key of a normalized record is the 10-character digest
    of its URL alone (of the empty string when the raw record has none), so
    two raw records with the same URL collide whatever their titles: when
    both are remembered in one batch, the later one is what the cache
    returns. *)
Theorem normalized_key_is_url_digest (r1 r2 : CareerjetRawJob)
  (host : Host) (s : Store) :
  hash_of (normalizeJob r1) = url_hash (nullish (raw_url r1) [])
  /\ (raw_url r1 = raw_url r2 ->
      hash_of (normalizeJob r1) = hash_of (normalizeJob r2)
      /\ let s' := snd (rememberJobs (map normalizeJob [r1; r2]) host s) in
         getJobFromCache (hash_of (normalizeJob r1)) host s'
         = (Returned (Some (normalizeJob r2)), s')).
Proof.
  assert (K : forall r, hash_of (normalizeJob r) = url_hash (nullish (raw_url r) [])).
  { intros r. unfold hash_of. cbn [slug normalizeJob]. apply hash_of_made_slug. }
  split; [apply K|]. intros E.
  assert (K2 : hash_of (normalizeJob r1) = hash_of (normalizeJob r2))
    by (now rewrite !K, E).
  split; [exact K2|]. intros s'. subst s'.
  rewrite getJobFromCache_run, rememberJobs_run.
  cbn [snd jobCache with_jobCache clock].
  rewrite map_get_remember_into. cbn [map rev app find].
  rewrite K2, eqb_refl. cbn [expiresAt job].
  destruct (clock s + JOB_CACHE_TTL_MS <? clock s) eqn:X; [|reflexivity].
  apply Z.ltb_lt in X. unfold JOB_CACHE_TTL_MS in X. lia.
Qed.

End NormalizedKeys.

(** ** More on the search client *)

Section SearchClientFacts.

Context {engine : JsEngine}.

Ltac run_js :=
  unfold bind, ret, throw, ask, get_store, put_store, Date_now, try_catch,
    console_error.

Lemma fetch_and_parse_run (q : jsstring) (host : Host) (s : Store) :
  fetch_and_parse q host s
  = match truthy (CAREERJET_API_KEY (env host)) with
    | None => (Threw (ErrorObject missing_key_message), s)
    | Some key =>
        let s1 := record_request (search_request q host key) s in
        match remote host (search_request q host key) with
        | Rejected e => (Threw e, s1)
        | Responded resp =>
            if response_ok resp then
              match json resp with
              | inl e => (Threw e, s1)
              | inr data =>
                  match jobs data with
                  | Some raws =>
                      (Returned (with_jobs data (Some (map normalizeJob raws))),
                       with_jobCache
                         (remember_into (clock s + JOB_CACHE_TTL_MS)
                            (map normalizeJob raws) (jobCache s)) s1)
                  | None => (Returned (with_jobs data None), s1)
                  end
              end
            else (Threw (ErrorObject (http_error_message resp)), s1)
        end
    end.
Proof.
  unfold fetch_and_parse, buildAuthHeader, ensureApiKey, getReferer, fetch,
    rememberJobs, search_request, response_ok, http_error_message, with_jobs.
  run_js.
  destruct (truthy (CAREERJET_API_KEY (env host))) as [key|]; [|reflexivity].
  cbn beta iota zeta.
  destruct (remote host _) as [e|resp]; [reflexivity|].
  cbn beta iota zeta.
  destruct ((200 <=? status resp) && (status resp <=? 299)); [|reflexivity].
  cbn [negb]. cbn beta iota zeta.
  destruct (json resp) as [e|data]; [reflexivity|].
  destruct (jobs data); reflexivity.
Qed.

(** X12: [searchJobs] returns a response in every case: no rejection of
    [fetch], no HTTP status, no malformed body and no missing credential
    makes it throw; it sends at most one request and does not touch the
    clock. *)
Theorem searchJobs_never_throws (criteria : CareerjetSearchCriteria)
  (host : Host) (s : Store) :
  exists r s',
    searchJobs criteria host s = (Returned r, s')
    /\ clock s' = clock s
    /\ at_most_one_request s s'.
Proof.
  destruct (searchJobs_returns criteria host s) as [r [s' R]].
  destruct (searchJobs_effects criteria host s) as [C S].
  rewrite R in C, S. exists r, s'. auto.
Qed.

(** X13: a request goes out exactly when no stored response is served and
    the credential is set and non-empty; it is then the one request to the
    API endpoint with the query string, Basic authorization made of the key
    and an empty password, and the Referer taken from CAREERJET_REFERER,
    else NEXT_PUBLIC_SITE_URL, else the default. *)
Theorem searchJobs_request (criteria : CareerjetSearchCriteria)
  (host : Host) (s : Store) :
  let q := query_of criteria host in
  let s' := snd (searchJobs criteria host s) in
  match served CACHE_TTL_SECONDS q s, truthy (CAREERJET_API_KEY (env host)) with
  | None, Some key => sent s' = search_request q host key :: sent s
  | _, _ => sent s' = sent s
  end.
Proof.
  intros q s'. subst s'. rewrite searchJobs_run, cachedSearch_run. fold q.
  destruct (served CACHE_TTL_SECONDS q s);
    [now destruct (truthy (CAREERJET_API_KEY (env host)))|].
  rewrite fetch_and_parse_run.
  destruct (truthy (CAREERJET_API_KEY (env host))) as [key|].
  - cbn zeta. destruct (remote host _) as [e|resp].
    + simpl. now destruct (not_production host).
    + destruct (response_ok resp).
      * destruct (json resp) as [e|data].
        -- simpl. now destruct (not_production host).
        -- now destruct (jobs data).
      * simpl. now destruct (not_production host).
  - simpl. now destruct (not_production host).
Qed.

(** X14: a response whose status is outside 200..299 becomes the
    error-tagged response whose message is "Careerjet API error (status): "
    followed by the body text, or by the status text when the body is empty;
    neither cache is written. *)
Theorem searchJobs_http_error (criteria : CareerjetSearchCriteria)
  (host : Host) (s : Store) (key : jsstring) (resp : HttpResponse) :
  let q := query_of criteria host in
  served CACHE_TTL_SECONDS q s = None ->
  truthy (CAREERJET_API_KEY (env host)) = Some key ->
  remote host (search_request q host key) = Responded resp ->
  response_ok resp = false ->
  exists s',
    searchJobs criteria host s
    = (Returned (emptyResponse
                   (Some (js "Careerjet API error (" ++ String_of_Z (status resp)
                          ++ js "): "
                          ++ match text resp with
                             | [] => statusText resp
                             | body => body
                             end))), s')
    /\ jobCache s' = jobCache s
    /\ dataCache s' = dataCache s.
Proof.
  intros q Miss K R X. rewrite searchJobs_run, cachedSearch_run. fold q.
  rewrite Miss, fetch_and_parse_run, K. cbn zeta. rewrite R, X.
  cbn [failure_message]. unfold http_error_message, or_default, truthy.
  destruct (text resp);
    (eexists; split; [reflexivity|];
     destruct (not_production host); split; reflexivity).
Qed.

Lemma searchJobs_fetched (criteria : CareerjetSearchCriteria)
  (host : Host) (s : Store) (key : jsstring) (resp : HttpResponse)
  (data : SearchResponse CareerjetRawJob) (raws : list CareerjetRawJob) :
  let q := query_of criteria host in
  served CACHE_TTL_SECONDS q s = None ->
  truthy (CAREERJET_API_KEY (env host)) = Some key ->
  remote host (search_request q host key) = Responded resp ->
  response_ok resp = true ->
  json resp = inr data ->
  jobs data = Some raws ->
  exists s',
    searchJobs criteria host s
    = (Returned (with_jobs data (Some (map normalizeJob raws))), s')
    /\ jobCache s'
       = remember_into (clock s + 900000) (map normalizeJob raws) (jobCache s).
Proof.
  intros q Miss K R X J A. rewrite searchJobs_run, cachedSearch_run. fold q.
  rewrite Miss, fetch_and_parse_run, K. cbn zeta. rewrite R, X, J, A.
  eexists. split; reflexivity.
Qed.

(** A job just remembered is found under its hash until its expiration. *)
Lemma remembered_is_found (listed : list CareerjetJob) (j : CareerjetJob)
  (host : Host) (s' : Store) (e : Z) (c : JsMap CacheEntry) :
  jobCache s' = remember_into e listed c ->
  In j listed ->
  clock s' <= e ->
  exists j', getJobFromCache (hash_of j) host s' = (Returned (Some j'), s')
             /\ In j' listed /\ hash_of j' = hash_of j.
Proof.
  intros C Hin Ht. rewrite getJobFromCache_run, C, map_get_remember_into.
  destruct (find _ (rev listed)) as [j'|] eqn:F.
  - apply find_some in F as [Hin' F]. apply in_rev in Hin'. apply eqb_eq in F.
    exists j'. cbn [expiresAt job].
    replace (e <? clock s') with false by (symmetry; apply Z.ltb_ge; lia).
    auto.
  - exfalso. apply in_rev in Hin.
    pose proof (find_none _ _ F j Hin) as N. simpl in N.
    now rewrite eqb_refl in N.
Qed.

(** X15: a 2xx response whose body carries a jobs array is returned with
    every raw record normalized, in order, and its other fields as they
    came; every returned job is then in the job cache under its hash, so
    that until 15 minutes later [getJobFromCache] on that hash finds a
    returned job with that hash. *)
Theorem searchJobs_success (criteria : CareerjetSearchCriteria)
  (host : Host) (s : Store) (key : jsstring) (resp : HttpResponse)
  (data : SearchResponse CareerjetRawJob) (raws : list CareerjetRawJob) :
  let q := query_of criteria host in
  served CACHE_TTL_SECONDS q s = None ->
  truthy (CAREERJET_API_KEY (env host)) = Some key ->
  remote host (search_request q host key) = Responded resp ->
  response_ok resp = true ->
  json resp = inr data ->
  jobs data = Some raws ->
  exists s',
    searchJobs criteria host s
    = (Returned (with_jobs data (Some (map normalizeJob raws))), s')
    /\ jobCache s'
       = remember_into (clock s + 900000) (map normalizeJob raws) (jobCache s)
    /\ (forall j t, In j (map normalizeJob raws) -> t <= clock s + 900000 ->
          exists j', getJobFromCache (hash_of j) host (with_clock t s')
                     = (Returned (Some j'), with_clock t s')
                     /\ In j' (map normalizeJob raws)
                     /\ hash_of j' = hash_of j).
Proof.
  intros q Miss K R X J A.
  destruct (searchJobs_fetched criteria host s Miss K R X J A) as [s' [E C]].
  exists s'. split; [exact E|]. split; [exact C|].
  intros j t Hin Ht.
  eapply remembered_is_found; [exact C|exact Hin|exact Ht].
Qed.

(** X16: a 2xx response without a jobs array, such as a LOCATIONS
    disambiguation, is returned as it came, and the job cache is not
    touched. *)
Theorem searchJobs_without_jobs (criteria : CareerjetSearchCriteria)
  (host : Host) (s : Store) (key : jsstring) (resp : HttpResponse)
  (data : SearchResponse CareerjetRawJob) :
  let q := query_of criteria host in
  served CACHE_TTL_SECONDS q s = None ->
  truthy (CAREERJET_API_KEY (env host)) = Some key ->
  remote host (search_request q host key) = Responded resp ->
  response_ok resp = true ->
  json resp = inr data ->
  jobs data = None ->
  exists s',
    searchJobs criteria host s = (Returned (with_jobs data None), s')
    /\ type (with_jobs data None) = type data
    /\ location_choices (with_jobs data None) = location_choices data
    /\ jobs (with_jobs data None) = None
    /\ jobCache s' = jobCache s.
Proof.
  intros q Miss K R X J A. rewrite searchJobs_run, cachedSearch_run. fold q.
  rewrite Miss, fetch_and_parse_run, K. cbn zeta. rewrite R, X, J, A.
  eexists. repeat split.
Qed.

Lemma cachedSearch_console (q : jsstring) (host : Host) (s : Store) :
  console (snd (cachedSearch q host s)) = console s.
Proof.
  rewrite cachedSearch_run. destruct (served _ _ s); [reflexivity|].
  destruct (fetch_and_parse_effects q host s) as [_ [_ C]].
  now destruct (fetch_and_parse q host s) as [[r|e] s1].
Qed.

Lemma not_production_iff (host : Host) :
  not_production host = true <-> NODE_ENV (env host) <> Some (js "production").
Proof.
  unfold not_production. destruct (NODE_ENV (env host)) as [v|].
  - rewrite negb_true_iff, eqb_neq. split; congruence.
  - split; [discriminate|reflexivity].
Qed.

(** X17: [searchJobs] writes to the console exactly when the awaited search
    threw and NODE_ENV is not "production": it then adds one line, labelled
    "Careerjet search failed:", carrying what was thrown.  When the search
    returned, and always in production, the console is left as it was. *)
Theorem searchJobs_logging (criteria : CareerjetSearchCriteria)
  (host : Host) (s : Store) :
  let s' := snd (searchJobs criteria host s) in
  let awaited := fst (cachedSearch (query_of criteria host) host s) in
  (forall e, awaited = Threw e ->
     NODE_ENV (env host) <> Some (js "production") ->
     console s' = {| label := js "Careerjet search failed:"; logged := e |}
                  :: console s)
  /\ (forall r, awaited = Returned r -> console s' = console s)
  /\ (NODE_ENV (env host) = Some (js "production") -> console s' = console s).
Proof.
  intros s' awaited. subst s' awaited. rewrite searchJobs_run.
  pose proof (cachedSearch_console (query_of criteria host) host s) as C.
  destruct (cachedSearch _ host s) as [[r|e] s1]; cbn [fst snd] in *.
  - split; [discriminate|]. split; auto.
  - split; [|split; [discriminate|]].
    + intros e' [= <-] NP. apply not_production_iff in NP. rewrite NP.
      cbn [console log_line]. now rewrite C.
    + intros P. unfold not_production. rewrite P. cbn. exact C.
Qed.

Lemma buildQueryString_in_order (criteria : CareerjetSearchCriteria)
  (requestMeta : RequestMeta) :
  buildQueryString criteria requestMeta
  = Wire.params_toString (query_params criteria requestMeta).
Proof.
  unfold buildQueryString, query_params, DEFAULT_LOCALE, DEFAULT_PAGE_SIZE.
  f_equal.
  generalize (match radius criteria with
              | Some r => if r =? 0 then None else Some (String_of_Z r)
              | None => None
              end).
  generalize (truthy (keywords criteria)).
  generalize (truthy (location criteria)).
  generalize (option_map contractType_code (contractType criteria)).
  generalize (option_map workHours_code (workHours criteria)).
  intros [w|] [c|] [l|] [k|] [r|]; reflexivity.
Qed.

Lemma digits_are_digits (fuel : nat) (n : Z) (acc : jsstring) :
  forallb (fun c => (48 <=? c) && (c <=? 57)) acc = true ->
  forallb (fun c => (48 <=? c) && (c <=? 57)) (digits fuel n acc) = true.
Proof.
  revert n acc. induction fuel as [|f IH]; intros n acc A; [exact A|].
  cbn [digits].
  assert (A' : forallb (fun c => (48 <=? c) && (c <=? 57))
                 ((48 + n mod 10) :: acc) = true).
  { cbn [forallb]. rewrite A, andb_true_r.
    pose proof (Z.mod_pos_bound n 10 ltac:(lia)).
    apply andb_true_iff. split; apply Z.leb_le; lia. }
  destruct (n / 10 =? 0); [exact A'|]. now apply IH.
Qed.

(** X18: for criteria whose numbers are safe integers, the query string is
    the form-urlencoded list of, in this order, locale_code=en_US, page_size
    (20 by default), page (1 by default), user_ip, user_agent, then radius
    unless 0, keywords and location unless empty, contract_type and
    work_hours when given: absent and falsy criteria leave no trace, no
    parameter overwrites another, and page and page size are written in
    plain decimal digits, after a minus sign when negative. *)
Theorem buildQueryString_parameters (criteria : CareerjetSearchCriteria)
  (requestMeta : RequestMeta) :
  safe_criteria criteria ->
  buildQueryString criteria requestMeta
  = Wire.params_toString (query_params criteria requestMeta)
  /\ (forall n, In n [nullish (page criteria) 1; nullish (pageSize criteria) 20] ->
        safe_integer n
        /\ exists ds, forallb (fun c => (48 <=? c) && (c <=? 57)) ds = true
                      /\ String_of_Z n = (if n <? 0 then [hyphen] else []) ++ ds).
Proof.
  intros [Sp [Ss _]]. split; [apply buildQueryString_in_order|].
  intros n Hn.
  assert (S : safe_integer n).
  { destruct Hn as [<-|[<-|[]]].
    - destruct (page criteria); [exact Sp|]. unfold safe_integer. simpl. lia.
    - destruct (pageSize criteria); [exact Ss|]. unfold safe_integer. simpl. lia. }
  split; [exact S|]. unfold String_of_Z.
  destruct (n <? 0); eexists; (split; [|reflexivity]);
    now apply digits_are_digits.
Qed.

(** X19: after a search that fetched and returned, the same search again,
    while less than 600 seconds have passed on the clock, returns the same
    response without sending anything and without touching the store: in
    particular it does not renew the job cache. *)
Theorem searchJobs_again_is_served (criteria : CareerjetSearchCriteria)
  (host : Host) (s s1 : Store) (r : CareerjetSearchResponse) (t : Z) :
  let q := query_of criteria host in
  served CACHE_TTL_SECONDS q s = None ->
  fetch_and_parse q host s = (Returned r, s1) ->
  t < clock s + 600000 ->
  let s' := snd (searchJobs criteria host s) in
  fst (searchJobs criteria host s) = Returned r
  /\ searchJobs criteria host (with_clock t s') = (Returned r, with_clock t s').
Proof.
  intros q Miss F Ht s'. subst s'.
  destruct (fetch_and_parse_effects q host s) as [C _]. rewrite F in C.
  unfold same_clock in C. simpl in C.
  rewrite !searchJobs_run, !cachedSearch_run. fold q. rewrite Miss, F.
  cbn [fst snd]. split; [reflexivity|].
  unfold served. cbn [dataCache with_clock with_dataCache clock].
  rewrite map_get_set_same. rewrite C.
  replace (t <? clock s + CACHE_TTL_SECONDS * 1000) with true
    by (symmetry; apply Z.ltb_lt; unfold CACHE_TTL_SECONDS; lia).
  reflexivity.
Qed.

(** ** More on the slug resolver *)

Lemma findJobBySlug_hit (slug_ : jsstring)
  (fallbackCriteria : CareerjetSearchCriteria) (host : Host) (s : Store)
  (e : CacheEntry) :
  map_get (extractHashFromSlug slug_) (jobCache s) = Some e ->
  clock s <= expiresAt e ->
  findJobBySlug slug_ fallbackCriteria host s = (Returned (Some (job e)), s).
Proof.
  intros G L. unfold findJobBySlug. unfold bind at 1.
  rewrite getJobFromCache_run, G.
  replace (expiresAt e <? clock s) with false
    by (symmetry; apply Z.ltb_ge; lia).
  reflexivity.
Qed.

(** X20: when the cache holds a live entry under the hash of the slug,
    [findJobBySlug] returns its job at once: no search, no request, no
    change of the store, whatever the fallback criteria and whatever
    precedes the last hyphen of the slug. *)
Theorem findJobBySlug_cache_hit (slug_ : jsstring)
  (fallbackCriteria : CareerjetSearchCriteria) (host : Host) (s : Store)
  (e : CacheEntry) :
  map_get (extractHashFromSlug slug_) (jobCache s) = Some e ->
  clock s <= expiresAt e ->
  findJobBySlug slug_ fallbackCriteria host s = (Returned (Some (job e)), s)
  /\ (forall other, extractHashFromSlug other = extractHashFromSlug slug_ ->
        findJobBySlug other fallbackCriteria host s = (Returned (Some (job e)), s)).
Proof.
  intros G L. split; [now apply findJobBySlug_hit|].
  intros other E. apply findJobBySlug_hit; [|exact L]. now rewrite E.
Qed.

(** How [findJobBySlug] ends on responses of the declared shape. *)
Lemma findJobBySlug_outcome (slug_ : jsstring)
  (fallbackCriteria : CareerjetSearchCriteria) (host : Host) (s : Store) :
  exists o s',
    findJobBySlug slug_ fallbackCriteria host s = (Returned o, s')
    /\ at_most_one_request s s'
    /\ (well_keyed (jobCache s) ->
        forall j, o = Some j -> hash_of j = extractHashFromSlug slug_).
Proof.
  unfold findJobBySlug. unfold bind at 1. rewrite getJobFromCache_run.
  set (h := extractHashFromSlug slug_).
  assert (S : forall s0, sent s0 = sent s ->
            exists o s',
              bind (searchJobs (resolver_criteria slug_ fallbackCriteria))
                (fun response =>
                   ret match jobs response with
                       | Some items =>
                           find (fun item => JsString.eqb
                                               (extractHashFromSlug (slug item)) h)
                                items
                       | None => None
                       end) host s0 = (Returned o, s')
              /\ at_most_one_request s s'
              /\ (forall j, o = Some j -> hash_of j = h)).
  { intros s0 E. unfold bind, ret.
    destruct (searchJobs_returns (resolver_criteria slug_ fallbackCriteria) host s0)
      as [r [s' R]].
    destruct (searchJobs_effects (resolver_criteria slug_ fallbackCriteria) host s0)
      as [_ Q].
    rewrite R in *. simpl in Q. eexists. exists s'. split; [reflexivity|].
    split; [unfold at_most_one_request in *; now rewrite <- E|].
    intros j Ej. destruct (jobs r) as [items|]; [|discriminate].
    apply find_some in Ej as [_ Ej]. now apply eqb_eq in Ej. }
  destruct (map_get h (jobCache s)) as [c|] eqn:G.
  - destruct (expiresAt c <? clock s).
    + destruct (S (with_jobCache (map_delete h (jobCache s)) s) eq_refl)
        as [o [s' [R [Q W]]]].
      exists o, s'. auto.
    + exists (Some (job c)), s. split; [reflexivity|]. split; [now left|].
      intros WK j [= <-]. apply (WK h c). now apply map_get_In.
  - destruct (S s eq_refl) as [o [s' [R [Q W]]]]. exists o, s'. auto.
Qed.

(** X21: whenever [findJobBySlug] returns, it has sent at most one request,
    and, in a cache where every entry sits under its job's hash, a job it
    returns carries the hash of the slug asked for, be it from the cache or
    from the search. *)
Theorem findJobBySlug_result (slug_ : jsstring)
  (fallbackCriteria : CareerjetSearchCriteria) (host : Host) (s s' : Store)
  (o : option CareerjetJob) :
  findJobBySlug slug_ fallbackCriteria host s = (Returned o, s') ->
  at_most_one_request s s'
  /\ (well_keyed (jobCache s) ->
      forall j, o = Some j -> hash_of j = extractHashFromSlug slug_).
Proof.
  intros E.
  destruct (findJobBySlug_outcome slug_ fallbackCriteria host s)
    as [o0 [s0 [E0 [Q W]]]].
  rewrite E in E0. injection E0 as <- <-. split; assumption.
Qed.

End SearchClientFacts.

(** ** Site URL, robots and sitemap *)

Lemma strip_trailing_slash_added (u : jsstring) :
  Sitemap.strip_trailing_slash (u ++ [slash]) = u.
Proof.
  unfold Sitemap.strip_trailing_slash. rewrite rev_app_distr. simpl.
  apply rev_involutive.
Qed.

Lemma strip_trailing_slash_none (u : jsstring) :
  last u 0 <> slash -> Sitemap.strip_trailing_slash u = u.
Proof.
  intros N. unfold Sitemap.strip_trailing_slash.
  rewrite <- (rev_involutive u) in N. rewrite last_rev_hd in N.
  destruct (rev u) as [|c r]; [reflexivity|]. simpl in N.
  destruct c as [|p|p]; try reflexivity.
  repeat (destruct p as [p|p|]; try reflexivity).
  now contradiction N.
Qed.

(** X22: only one trailing slash of the site URL is dropped, so a site URL
    written with or without a final slash gives the same robots file, whose
    sitemap address is that URL followed by /sitemap.xml, and the same
    origin for the sitemap; the robots file allows every crawler
    everything. *)
Theorem robots_ignores_one_trailing_slash (u : jsstring) (h1 h2 : Host)
  (s : Store) :
  last u 0 <> slash ->
  NEXT_PUBLIC_SITE_URL (env h1) = Some u ->
  NEXT_PUBLIC_SITE_URL (env h2) = Some (u ++ [slash]) ->
  Robots.robots h1 s
  = (Returned {| Robots.rules := {| Robots.userAgent := js "*";
                                    Robots.allow := js "/" |};
                 Robots.sitemap := u ++ js "/sitemap.xml" |}, s)
  /\ Robots.robots h2 s = Robots.robots h1 s
  /\ Sitemap.default_origin h1 s = (Returned u, s)
  /\ Sitemap.default_origin h2 s = (Returned u, s)
  /\ Sitemap.strip_trailing_slash (u ++ [slash; slash]) = u ++ [slash].
Proof.
  intros N E1 E2.
  unfold Robots.robots, Sitemap.default_origin, Robots.site_url, bind, ask, ret.
  rewrite E1, E2. cbn [nullish].
  rewrite strip_trailing_slash_added, (strip_trailing_slash_none _ N).
  repeat split.
  change (u ++ [slash; slash]) with (u ++ [slash] ++ [slash]).
  rewrite app_assoc. apply strip_trailing_slash_added.
Qed.

(** ** Job page metadata *)

Lemma slice0_length (n : nat) (s : jsstring) :
  (List.length (slice0 n s) <= n)%nat.
Proof. unfold slice0. rewrite length_firstn. lia. Qed.

(** X23: the metadata of a job always has a description of at most 200
    code units, a prefix of the tag-stripped job description, repeated in
    the Open Graph and Twitter blocks; without a job the page is titled
    "Job not found | JobHub", has a site-relative canonical path and no
    social blocks.  [createMetadata] never throws and changes nothing. *)
Theorem createMetadata_description (found : option CareerjetJob)
  (slug_ : jsstring) (host : Host) (s : Store) :
  exists m,
    JobPage.createMetadata found slug_ host s = (Returned m, s)
    /\ match found with
       | None =>
           JobPage.meta_title m = js "Job not found | JobHub"
           /\ JobPage.canonical m = js "/jobs/" ++ slug_
           /\ JobPage.openGraph m = None /\ JobPage.twitter m = None
       | Some j =>
           (List.length (JobPage.meta_description m) <= 200)%nat
           /\ JobPage.meta_description m
              = firstn 200 (plainTextFromHtml (description j))
           /\ (List.length (JobPage.meta_description m)
               <= List.length (description j))%nat
           /\ option_map JobPage.og_description (JobPage.openGraph m)
              = Some (JobPage.meta_description m)
           /\ option_map JobPage.tw_description (JobPage.twitter m)
              = Some (JobPage.meta_description m)
           /\ option_map JobPage.og_url (JobPage.openGraph m)
              = Some (JobPage.canonical m)
       end.
Proof.
  destruct found as [j|]; unfold JobPage.createMetadata, bind, ask, ret.
  - eexists. split; [reflexivity|].
    cbn [JobPage.meta_description JobPage.openGraph JobPage.twitter
         JobPage.og_description JobPage.tw_description JobPage.og_url
         JobPage.canonical option_map].
    split; [apply slice0_length|]. split; [reflexivity|].
    split; [|repeat split].
    unfold slice0. rewrite length_firstn.
    pose proof (plainTextFromHtml_length (description j)) as L. lia.
  - eexists. split; [reflexivity|]. repeat split.
Qed.

Section PageFacts.

Context {engine : JsEngine}.

(** X24: the canonical URL of a job page is the URL the sitemap lists for
    that job when the site URL has no trailing slash.  With a trailing slash
    the two differ: the sitemap drops it, the metadata keeps it and gets a
    double slash. *)
Theorem canonical_matches_sitemap (j : CareerjetJob) (host : Host)
  (s : Store) (now : Z) :
  let site := Robots.site_url host in
  let listed := Sitemap.url (Sitemap.jobEntry (Sitemap.strip_trailing_slash site)
                               now j) in
  exists m,
    JobPage.createMetadata (Some j) (slug j) host s = (Returned m, s)
    /\ JobPage.canonical m = site ++ js "/jobs/" ++ slug j
    /\ (last site 0 <> slash -> JobPage.canonical m = listed)
    /\ (forall u, site = u ++ [slash] ->
          listed = u ++ js "/jobs/" ++ slug j
          /\ JobPage.canonical m = u ++ js "//jobs/" ++ slug j
          /\ JobPage.canonical m <> listed).
Proof.
  intros site listed.
  unfold JobPage.createMetadata, bind, ask, ret. eexists.
  split; [reflexivity|]. cbn [JobPage.canonical]. fold (Robots.site_url host).
  fold site. split; [reflexivity|]. split.
  - intros N. subst listed. cbn [Sitemap.url Sitemap.jobEntry].
    now rewrite (strip_trailing_slash_none _ N).
  - intros u E. subst listed. cbn [Sitemap.url Sitemap.jobEntry].
    rewrite E, strip_trailing_slash_added. split; [reflexivity|].
    split; [now rewrite <- app_assoc|].
    rewrite <- app_assoc. intros C. apply app_inv_head in C.
    apply (f_equal (@List.length char16)) in C. simpl in C. lia.
Qed.

Variable toISOString : Z -> jsstring.

(** X25: the structured data carries a salary block exactly when the job
    has both a minimum and a maximum salary and neither is 0; the block then
    holds these two values, the job's currency or USD when it has none, and
    HOUR, DAY, WEEK or MONTH for the salary types H, D, W, M, YEAR for Y and
    for a job without salary type. *)
Theorem structured_data_salary (j : CareerjetJob) (slug_ : jsstring)
  (host : Host) (s : Store) :
  exists p,
    JobPage.jobPostingStructuredData toISOString j slug_ host s = (Returned p, s)
    /\ (JobPage.baseSalary p <> None
        <-> exists lo hi, salary_min j = Some lo /\ salary_max j = Some hi
                          /\ lo <> 0 /\ hi <> 0)
    /\ (forall b, JobPage.baseSalary p = Some b ->
          salary_min j = Some (JobPage.minValue b)
          /\ salary_max j = Some (JobPage.maxValue b)
          /\ JobPage.currency b
             = match salary_currency_code j with Some c => c | None => js "USD" end
          /\ JobPage.unitText b
             = match salary_type j with
               | Some per_H => js "HOUR" | Some per_D => js "DAY"
               | Some per_W => js "WEEK" | Some per_M => js "MONTH"
               | Some per_Y => js "YEAR" | None => js "YEAR"
               end)
    /\ (JobPage.datePosted p = None <-> Date_parse (date j) = None).
Proof.
  unfold JobPage.jobPostingStructuredData, bind, ask, ret. eexists.
  split; [reflexivity|]. cbn [JobPage.baseSalary JobPage.datePosted].
  unfold JobPage.both_truthy.
  split; [|split].
  - destruct (salary_min j) as [lo|], (salary_max j) as [hi|];
      try (split; [congruence|]; intros [? [? [A [B _]]]]; congruence).
    destruct (Z.eqb_spec lo 0) as [L|L], (Z.eqb_spec hi 0) as [H|H];
      cbn [orb];
      (split;
       [ intros N; try congruence; exists lo, hi; auto
       | intros [lo' [hi' [[= <-] [[= <-] [N1 N2]]]]];
         try congruence; discriminate ]).
  - intros b. destruct (salary_min j) as [lo|], (salary_max j) as [hi|];
      try discriminate.
    destruct ((lo =? 0) || (hi =? 0)); [discriminate|].
    intros [= <-]. cbn. repeat split.
  - destruct (Date_parse (date j)); cbn; split; congruence.
Qed.

(** X26: for a job produced by [normalizeJob] the apply link of the
    structured data is always the job's own URL, the same as its sameAs
    link: the fallback to [job.url] is never needed and no other link is
    ever offered. *)
Theorem structured_data_apply_link (raw : CareerjetRawJob) (slug_ : jsstring)
  (host : Host) (s : Store) :
  exists p,
    JobPage.jobPostingStructuredData toISOString (normalizeJob raw) slug_ host s
    = (Returned p, s)
    /\ JobPage.applicationContact_url p = JobPage.posting_sameAs p
    /\ JobPage.posting_sameAs p
       = match raw_url raw with Some u => u | None => [] end
    /\ JobPage.identifier_value p = slug_.
Proof.
  unfold JobPage.jobPostingStructuredData, bind, ask, ret. eexists.
  split; [reflexivity|]. repeat split.
Qed.

End PageFacts.

(** ** Request metadata *)

Lemma or_default_not_empty (o : option jsstring) (d : jsstring) :
  d <> [] -> or_default o d <> [].
Proof.
  intros D. unfold or_default, truthy.
  destruct o as [[|c r]|]; try exact D. discriminate.
Qed.

(** X27: the client IP, the user agent and the Referer sent to the API are
    never empty: an absent or empty header or variable falls through to the
    next source and at last to 8.8.8.8, JobHubBot/1.0 and
    https://jobhub.example.com.  Outside a request scope only the
    environment and these defaults are used. *)
Theorem request_metadata_never_empty (host : Host) (q key : jsstring) :
  ip (request_metadata host) <> []
  /\ userAgent (request_metadata host) <> []
  /\ Referer (search_request q host key) <> []
  /\ (inbound host = None ->
      ip (request_metadata host)
      = or_default (CAREERJET_FALLBACK_IP (env host)) (js "8.8.8.8")
      /\ userAgent (request_metadata host)
         = or_default (CAREERJET_FALLBACK_UA (env host)) (js "JobHubBot/1.0")).
Proof.
  unfold request_metadata, search_request. cbn [Referer].
  split; [|split; [|split]].
  - destruct (inbound host); cbn [ip];
      repeat apply or_default_not_empty; discriminate.
  - destruct (inbound host); cbn [userAgent];
      repeat apply or_default_not_empty; discriminate.
  - repeat apply or_default_not_empty. discriminate.
  - intros ->. split; reflexivity.
Qed.

Section Flows.

Context {engine : JsEngine}.

(** X28: from a listing to a detail page: after a search that fetched a
    jobs array, resolving the slug of any returned job within the next 15
    minutes finds a returned job with the same hash in the cache, sends no
    request and changes nothing, whatever fallback criteria are given. *)
Theorem search_then_resolve (criteria fallbackCriteria : CareerjetSearchCriteria)
  (host : Host) (s : Store) (key : jsstring) (resp : HttpResponse)
  (data : SearchResponse CareerjetRawJob) (raws : list CareerjetRawJob)
  (j : CareerjetJob) (t : Z) :
  let q := query_of criteria host in
  served CACHE_TTL_SECONDS q s = None ->
  truthy (CAREERJET_API_KEY (env host)) = Some key ->
  remote host (search_request q host key) = Responded resp ->
  response_ok resp = true ->
  json resp = inr data ->
  jobs data = Some raws ->
  In j (map normalizeJob raws) ->
  t <= clock s + 900000 ->
  let s' := with_clock t (snd (searchJobs criteria host s)) in
  exists j',
    findJobBySlug (slug j) fallbackCriteria host s' = (Returned (Some j'), s')
    /\ In j' (map normalizeJob raws)
    /\ hash_of j' = hash_of j.
Proof.
  intros q Miss K R X J A Hin Ht s'.
  destruct (@searchJobs_fetched engine criteria host s key resp data raws
              Miss K R X J A) as [s1 [E C]].
  subst s'. rewrite E. cbn [snd].
  destruct (@remembered_is_found (map normalizeJob raws) j host
              (with_clock t s1) (clock s + 900000) (jobCache s) C Hin Ht)
    as [j' [Gj [Hin' Hh]]].
  exists j'. split; [|auto].
  unfold findJobBySlug. unfold bind at 1.
  fold (hash_of j). rewrite Gj. reflexivity.
Qed.

(** X29: the metadata of a detail page whose job is live in the cache is
    made from that job, with no search: the title is the job title, " at ",
    the company or "Unknown company", and " | JobHub". *)
Theorem generateMetadata_cache_hit (slug_ : jsstring)
  (keywords_ location_ : option jsstring) (host : Host) (s : Store)
  (e : CacheEntry) :
  map_get (extractHashFromSlug slug_) (jobCache s) = Some e ->
  clock s <= expiresAt e ->
  exists m,
    JobPage.generateMetadata slug_ keywords_ location_ host s = (Returned m, s)
    /\ JobPage.createMetadata (Some (job e)) slug_ host s = (Returned m, s)
    /\ JobPage.meta_title m
       = title (job e) ++ js " at "
         ++ match company (job e) with
            | [] => js "Unknown company"
            | c => c
            end
         ++ js " | JobHub".
Proof.
  intros G L. unfold JobPage.generateMetadata. unfold bind at 1.
  rewrite (@findJobBySlug_hit engine slug_
             (JobPage.buildFallbackCriteria keywords_ location_) host s e G L). unfold JobPage.createMetadata, bind, ask, ret.
  eexists. split; [reflexivity|]. split; [reflexivity|].
  cbn [JobPage.meta_title]. unfold or_default, truthy.
  now destruct (company (job e)).
Qed.

End Flows.

(** ** Concrete runs of the further properties *)

Lemma plainTextFromHtml_removes_tag_witness :
  plainTextFromHtml (js "Join <b>us</b> now") = js "Join us now".
Proof.
  assert (L : no_lt (js "Join ") = true) by reflexivity.
  assert (G : no_gt (js "b") = true) by reflexivity.
  assert (N : js "b" <> []) by discriminate.
  destruct (@plainTextFromHtml_removes_tag (js "Join ") (js "b")
              (js "us</b> now") L G N) as [E _].
  etransitivity; [exact E|]. reflexivity.
Defined.

Lemma snapshot_twice_witness :
  getCachedJobsSnapshot failing_host
    (snd (getCachedJobsSnapshot failing_host one_entry_store))
  = (Returned [one_job], one_entry_store).
Proof.
  assert (U : unique_keys (jobCache one_entry_store)).
  { constructor; [intros []|constructor]. }
  etransitivity; [exact (@snapshot_twice failing_host one_entry_store U)|].
  vm_compute. reflexivity.
Defined.

Lemma snapshot_agrees_with_get_witness :
  getJobFromCache (hash_of one_job) failing_host one_entry_store
  = (Returned (Some one_job), one_entry_store).
Proof.
  assert (U : unique_keys (jobCache one_entry_store)).
  { constructor; [intros []|constructor]. }
  assert (WK : well_keyed (jobCache one_entry_store)).
  { intros k e [E|[]].
    pose proof (f_equal fst E) as Ek. pose proof (f_equal snd E) as Ee.
    cbn [fst snd] in Ek, Ee. subst k e. reflexivity. }
  apply (@snapshot_agrees_with_get failing_host one_entry_store one_job U WK
           [one_job]).
  - vm_compute. reflexivity.
  - now left.
Defined.

Lemma searchJobs_http_error_witness :
  exists s',
    @searchJobs ascii_engine no_criteria failing_host (fresh_store 0)
    = (Returned (emptyResponse
                   (Some (js "Careerjet API error (500): Internal Server Error"))),
       s').
Proof.
  destruct (@searchJobs_http_error ascii_engine no_criteria failing_host
              (fresh_store 0) (js "secret") http_500
              eq_refl eq_refl eq_refl eq_refl) as [s' [E _]].
  exists s'. exact E.
Defined.

Lemma searchJobs_success_witness :
  exists s',
    @searchJobs ascii_engine no_criteria twin_host (fresh_store 0)
    = (Returned (with_jobs twin_data
                   (Some (map (@normalizeJob ascii_engine) twin_raws))), s').
Proof.
  destruct (@searchJobs_success ascii_engine no_criteria twin_host
              (fresh_store 0) (js "secret") (http_200 twin_raws) twin_data
              twin_raws eq_refl eq_refl eq_refl eq_refl eq_refl eq_refl)
    as [s' [E _]].
  exists s'. exact E.
Defined.

Lemma searchJobs_without_jobs_witness :
  exists s',
    @searchJobs ascii_engine no_criteria locations_host (fresh_store 0)
    = (Returned (with_jobs locations_data None), s')
    /\ jobCache s' = [].
Proof.
  destruct (@searchJobs_without_jobs ascii_engine no_criteria locations_host
              (fresh_store 0) (js "secret") http_locations locations_data
              eq_refl eq_refl eq_refl eq_refl eq_refl eq_refl)
    as [s' [E [_ [_ [_ C]]]]].
  exists s'. split; [exact E|exact C].
Defined.

Lemma searchJobs_again_is_served_witness :
  let first := @searchJobs ascii_engine no_criteria twin_host (fresh_store 0) in
  @searchJobs ascii_engine no_criteria twin_host (with_clock 1000 (snd first))
  = (fst first, with_clock 1000 (snd first)).
Proof.
  intros first.
  destruct (@searchJobs_again_is_served ascii_engine no_criteria twin_host
              (fresh_store 0)
              (snd (@fetch_and_parse ascii_engine
                      (query_of no_criteria twin_host) twin_host (fresh_store 0)))
              (with_jobs twin_data
                 (Some (map (@normalizeJob ascii_engine) twin_raws)))
              1000) as [F A].
  - reflexivity.
  - vm_compute. reflexivity.
  - vm_compute. reflexivity.
  - subst first. rewrite F. exact A.
Defined.

Lemma findJobBySlug_cache_hit_witness :
  @findJobBySlug ascii_engine (slug one_job) no_criteria failing_host
    one_entry_store
  = (Returned (Some one_job), one_entry_store).
Proof.
  destruct (@findJobBySlug_cache_hit ascii_engine (slug one_job) no_criteria
              failing_host one_entry_store
              {| job := one_job; expiresAt := 900000 |}) as [E _].
  - vm_compute. reflexivity.
  - vm_compute. discriminate.
  - exact E.
Defined.

Lemma robots_ignores_one_trailing_slash_witness :
  Robots.robots failing_host (fresh_store 0)
  = (Returned {| Robots.rules := {| Robots.userAgent := js "*";
                                    Robots.allow := js "/" |};
                 Robots.sitemap := js "https://jobs.example.org/sitemap.xml" |},
     fresh_store 0).
Proof.
  destruct (@robots_ignores_one_trailing_slash (js "https://jobs.example.org")
              {| env := {| CAREERJET_API_KEY := None; CAREERJET_REFERER := None;
                           NEXT_PUBLIC_SITE_URL := Some (js "https://jobs.example.org");
                           CAREERJET_FALLBACK_IP := None;
                           CAREERJET_FALLBACK_UA := None; NODE_ENV := None |};
                 inbound := None; remote := fun _ => Responded http_500 |}
              failing_host (fresh_store 0)) as [E1 [E2 _]].
  - vm_compute. discriminate.
  - reflexivity.
  - reflexivity.
  - rewrite E2. exact E1.
Defined.

Lemma search_then_resolve_witness :
  let s' := with_clock 60000
              (snd (@searchJobs ascii_engine no_criteria twin_host (fresh_store 0))) in
  exists j',
    @findJobBySlug ascii_engine
      (slug (@normalizeJob ascii_engine
               (demo_raw "Backend Engineer" "https://example.com/jobs/1")))
      no_criteria twin_host s'
    = (Returned (Some j'), s').
Proof.
  intros s'.
  destruct (@search_then_resolve ascii_engine no_criteria no_criteria twin_host
              (fresh_store 0) (js "secret") (http_200 twin_raws) twin_data
              twin_raws
              (@normalizeJob ascii_engine
                 (demo_raw "Backend Engineer" "https://example.com/jobs/1"))
              60000 eq_refl eq_refl eq_refl eq_refl eq_refl eq_refl)
    as [j' [E _]].
  - left. reflexivity.
  - vm_compute. discriminate.
  - exists j'. exact E.
Defined.

Lemma generateMetadata_cache_hit_witness :
  exists m,
    @JobPage.generateMetadata ascii_engine (slug one_job) None None failing_host
      one_entry_store
    = (Returned m, one_entry_store)
    /\ JobPage.meta_title m
       = js "Senior Backend Engineer at Unknown company | JobHub".
Proof.
  destruct (@generateMetadata_cache_hit ascii_engine (slug one_job) None None
              failing_host one_entry_store
              {| job := one_job; expiresAt := 900000 |}) as [m [E [_ T]]].
  - vm_compute. reflexivity.
  - vm_compute. discriminate.
  - exists m. split; [exact E|]. rewrite T. vm_compute. reflexivity.
Defined.

(** ** Errors of the runtime *)

Section RuntimeErrors.

Context {engine : JsEngine}.

(** Every throw of the fetch-and-parse step carries a message, when the
    rejections of [fetch] and of [response.json()] do. *)
Lemma step_throws_with_message (q : jsstring) (host : Host) (s s1 : Store)
  (e : Thrown) :
  throws_errors host ->
  fetch_and_parse q host s = (Threw e, s1) ->
  has_message e.
Proof.
  intros TE T. rewrite fetch_and_parse_run in T.
  destruct (truthy (CAREERJET_API_KEY (env host))) as [key|].
  - cbn zeta in T. specialize (TE (search_request q host key)).
    destruct (remote host (search_request q host key)) as [e0|resp].
    + injection T as <- _. exact TE.
    + destruct (response_ok resp).
      * destruct (json resp) as [e0|data].
        -- injection T as <- _. exact TE.
        -- destruct (jobs data); discriminate.
      * injection T as <- _. eexists. split; [reflexivity|].
        unfold http_error_message. discriminate.
  - injection T as <- _. eexists. split; [reflexivity|].
    unfold missing_key_message. discriminate.
Qed.

(** C1: when the fetch-and-parse step throws, be it for a response that is
    not 2xx, a failed [fetch], a body that does not parse or a missing
    credential, [searchJobs] does not throw: it returns the response of type
    ERROR whose message is the message of the thrown error, which is not
    empty, with no jobs, 0 hits and 1 page. *)
Theorem searchJobs_reports_thrown_error (criteria : CareerjetSearchCriteria)
  (host : Host) (s s1 : Store) (e : Thrown) :
  throws_errors host ->
  served CACHE_TTL_SECONDS (query_of criteria host) s = None ->
  fetch_and_parse (query_of criteria host) host s = (Threw e, s1) ->
  exists m resp s2,
    e = ErrorObject m
    /\ m <> []
    /\ searchJobs criteria host s = (Returned resp, s2)
    /\ type resp = js "ERROR"
    /\ message resp = Some m
    /\ jobs resp = Some []
    /\ hits resp = Some 0
    /\ pages resp = Some 1.
Proof.
  intros TE Miss T.
  assert (M : has_message e) by (eapply step_throws_with_message; eauto).
  destruct M as [m [-> NE]].
  rewrite searchJobs_run, cachedSearch_run, Miss, T.
  exists m. eexists. eexists. repeat split. exact NE.
Qed.

End RuntimeErrors.

Lemma failing_host_throws_errors : throws_errors failing_host.
Proof.
  intros req. cbn. eexists. split; [reflexivity|discriminate].
Qed.

Lemma searchJobs_reports_thrown_error_witness :
  exists resp s2,
    @searchJobs ascii_engine no_criteria failing_host (fresh_store 0)
    = (Returned resp, s2)
    /\ type resp = js "ERROR"
    /\ message resp = Some (js "Careerjet API error (500): Internal Server Error").
Proof.
  destruct (@searchJobs_reports_thrown_error ascii_engine no_criteria
              failing_host (fresh_store 0)
              (snd (@fetch_and_parse ascii_engine
                      (query_of no_criteria failing_host) failing_host
                      (fresh_store 0)))
              (ErrorObject (js "Careerjet API error (500): Internal Server Error"))
              failing_host_throws_errors)
    as [m [resp [s2 [Em [_ [R [T [M _]]]]]]]].
  - reflexivity.
  - vm_compute. reflexivity.
  - injection Em as <-. exists resp, s2. auto.
Defined.

(** C3 as stated fails on a list in which two records share a hash: asked
    for that hash, the cache returns the later record, not the earlier one. *)
Lemma remember_then_get_twins :
  let s1 := snd (rememberJobs [twin_a; twin_b] failing_host (fresh_store 0)) in
  In twin_a [twin_a; twin_b]
  /\ hash_of twin_a = hash_of twin_b
  /\ getJobFromCache (hash_of twin_a) failing_host s1 = (Returned (Some twin_b), s1)
  /\ twin_b <> twin_a.
Proof.
  intros s1. split; [now left|]. split; [vm_compute; reflexivity|].
  split; [vm_compute; reflexivity|].
  intros E. apply (f_equal title) in E. vm_compute in E. discriminate.
Qed.

Lemma buildQueryString_parameters_witness :
  @buildQueryString Sitemap.sitemap_criteria
    {| ip := js "8.8.8.8"; userAgent := js "JobHubBot/1.0" |}
  = js "locale_code=en_US&page_size=20&page=1&user_ip=8.8.8.8&user_agent=JobHubBot%2F1.0".
Proof.
  assert (S : safe_criteria Sitemap.sitemap_criteria).
  { repeat split; try exact I; reflexivity. }
  destruct (@buildQueryString_parameters Sitemap.sitemap_criteria
              {| ip := js "8.8.8.8"; userAgent := js "JobHubBot/1.0" |} S)
    as [E _].
  rewrite E. vm_compute. reflexivity.
Defined.

Lemma findJobBySlug_result_witness :
  at_most_one_request one_entry_store one_entry_store
  /\ forall j, Some one_job = Some j -> hash_of j = extractHashFromSlug (slug one_job).
Proof.
  assert (E : @findJobBySlug ascii_engine (slug one_job) no_criteria
                failing_host one_entry_store
              = (Returned (Some one_job), one_entry_store)).
  { vm_compute. reflexivity. }
  destruct (@findJobBySlug_result ascii_engine (slug one_job) no_criteria
              failing_host one_entry_store one_entry_store (Some one_job) E)
    as [Q W].
  split; [exact Q|]. apply W.
  intros k e [Hk|[]].
  pose proof (f_equal fst Hk) as Ek. pose proof (f_equal snd Hk) as Ee.
  cbn [fst snd] in Ek, Ee. subst k e. reflexivity.
Defined.
